(** * homebridge-automation-chromecast: the device session lifecycle manager

    A shallow embedding of [index.js] (class [AutomationChromecast]) and the
    properties of its specification.

    The JavaScript object [this] is the record [State]; every method is a
    function from states to states.  What the methods do to their
    collaborators (the HomeKit services, the castv2 client, the mdns browser,
    the logger) is appended to the [trace] field, and the Node timer table is
    the finite map [timers].  [this.debug(...)] calls are diagnostics that
    touch nothing and are left out.  The built-in [toLowerCase] is the
    engine's: the model takes it as given ([JS.Engine]), so that what is
    proved about announcements holds for every case mapping. *)

From Stdlib Require Import ZArith String Ascii Bool List.
From Stdlib Require Import Floats.SpecFloat.
From stdpp Require Import base option gmap strings.
Import ListNotations.

Local Open Scope string_scope.
Local Open Scope list_scope.
Local Open Scope Z_scope.

(** ** JavaScript numbers

    A JavaScript number is an IEEE 754 binary64 value: [spec_float] with a
    53-bit significand, every operation rounded to nearest-even. *)

Module JS.

Definition number : Type := spec_float.

Definition prec : Z := 53.
Definition emax : Z := 1024.

(** The number denoted by an integer literal (exact below 2^53). *)
Definition of_Z (z : Z) : number := binary_normalize prec emax z 0 false.

Definition div (x y : number) : number := SFdiv prec emax x y.
Definition mul (x y : number) : number := SFmul prec emax x y.

(** [Math.floor]: a finite value with a non-negative exponent is an integer
    already; otherwise the significand is shifted right, which rounds
    towards minus infinity.  NaN, the infinities and the zeros are fixed. *)
Definition floor (x : number) : number :=
  match x with
  | S754_finite s m e =>
      if 0 <=? e then x
      else of_Z (Z.shiftr (cond_Zopp s (Zpos m)) (- e))
  | _ => x
  end.

(** A decimal literal with [d] digits after the point, [n / 10^d]: the
    correctly rounded quotient of two exactly represented integers is the
    binary64 value nearest to the decimal. *)
Definition of_decimal (n : Z) (d : nat) : number :=
  div (of_Z n) (of_Z (10 ^ Z.of_nat d)).

(** [String.prototype.toLowerCase] is a built-in of the engine that runs the
    code: it maps every cased letter of the Unicode tables the engine was
    built with.  The model does not fix these tables: the function is taken
    from the engine, and whatever is proved holds for every engine. *)
Class Engine := {
  toLowerCase : string -> string
}.

(** What every engine does on a string of ASCII characters: A-Z go to a-z
    and every other character stays. *)
Definition lower_ascii (c : ascii) : ascii :=
  let n := nat_of_ascii c in
  if (65 <=? n)%nat && (n <=? 90)%nat then ascii_of_nat (n + 32) else c.

Fixpoint toLowerCase_ascii (s : string) : string :=
  match s with
  | EmptyString => EmptyString
  | String c s' => String (lower_ascii c) (toLowerCase_ascii s')
  end.

(** Truthiness of a string and of an integer-valued number. *)
Definition truthy_string (s : string) : bool := negb (String.eqb s "").
Definition truthy_Z (z : Z) : bool := negb (z =? 0).

(** [setTimeout] of Node: a delay below 1 ms or above 2^31-1 ms is 1 ms. *)
Definition timeout_ms (delay : Z) : Z :=
  if (delay <? 1) || (2147483647 <? delay) then 1 else delay.

End JS.

Abbreviation number := JS.number.

(** ** Payloads received from the collaborators *)

(** An entry of the receiver's application list.  [transportId] may be
    missing (speaker groups). *)
Record Application := MkApplication {
  sessionId : string;
  transportId : option string
}.

(** [status.volume]: [vlevel = None] when the object has no [level] key. *)
Record VolumeObj := MkVolumeObj {
  vlevel : option number
}.

(** A receiver status.  [applications = None] is the field being absent
    ([undefined]); [Some []] is the empty list.  [svolume = None] is a
    missing (falsy) [volume]. *)
Record ClientStatus := MkClientStatus {
  applications : option (list Application);
  svolume : option VolumeObj
}.

(** A media status; [playerState = None] when the field is absent. *)
Record MediaStatus := MkMediaStatus {
  playerState : option string
}.

(** An mdns announcement: its TXT record ([fn], [md], [id]), its resolved
    addresses and its port. *)
Record Device := MkDevice {
  txt_fn : string;
  txt_md : option string;
  txt_id : option string;
  addresses : list string;
  port : Z
}.

(** ** Handles and effects *)

Abbreviation TimerId := nat.
Abbreviation ClientId := nat.
Abbreviation MediaId := nat.
Abbreviation BrowserId := nat.
Abbreviation CallbackId := nat.

(** What a pending timer runs when it fires. *)
Inductive TimerAction : Type :=
| RestartBrowser (b : BrowserId)
| Reconnect
| UpdateMotionSensor.

Record Timer := MkTimer {
  due : Z;
  action : TimerAction
}.

(** The messages given to [this.log]. *)
Inductive LogMsg : Type :=
| LogFound (ip : option string) (p : option Z)
| LogSearching (name : string)
| LogClientError
| LogDisconnected
| LogBackoff
| LogWaiting
| LogConnecting (ip : option string) (p : option Z)
| LogConnected
| LogPlaying
| LogStopped
| LogMotion (detecting : bool).

(** Calls made on the collaborators. *)
Inductive Effect : Type :=
| Log (m : LogMsg)
| SetSwitchOn (b : bool)
| SetMotionDetected (b : bool)
| BrowserCreate (b : BrowserId)
| BrowserStart (b : BrowserId)
| BrowserStop (b : BrowserId)
| ClientNew (c : ClientId)
| ClientConnect (c : ClientId) (host : option string) (p : option Z)
| ClientClose (c : ClientId)
| ClientGetStatus (c : ClientId)
| ClientJoin (c : ClientId) (app : Application)
| ClientSetVolume (c : ClientId) (lvl : number) (cb : CallbackId)
| MediaGetStatus (m : MediaId)
| MediaOnStatus (m : MediaId)
| MediaPlay (m : MediaId)
| MediaPause (m : MediaId)
| Invoke (cb : CallbackId).

(** ** The instance *)

(** The fields of [this] (the configuration, then the fields that
    [setDefaultProperties] initialises), followed by the runtime around it:
    the clock in milliseconds, the pending timers, the next fresh handles and
    the effects so far, newest first.  A field that holds [null] or
    [undefined] is [None]. *)
Record State := MkState {
  chromecastDeviceName : string;
  switchOffDelay : Z;
  chromecastIp : option string;
  chromecastPort : option Z;
  chromecastClient : option ClientId;
  isCastingStatus : bool;
  castingApplication : option Application;
  castingMedia : option MediaId;
  volume : number;
  deviceType : option string;
  deviceId : option string;
  switchOffDelayTimer : option TimerId;
  reconnectTimer : option TimerId;
  reconnectCounter : Z;
  clock : Z;
  timers : gmap TimerId Timer;
  nextTimer : TimerId;
  nextClient : ClientId;
  nextBrowser : BrowserId;
  trace : list Effect
}.

Definition set_chromecastIp (v : option string) (st : State) : State :=
  MkState (chromecastDeviceName st) (switchOffDelay st) v (chromecastPort st)
    (chromecastClient st) (isCastingStatus st) (castingApplication st)
    (castingMedia st) (volume st) (deviceType st) (deviceId st)
    (switchOffDelayTimer st) (reconnectTimer st) (reconnectCounter st)
    (clock st) (timers st) (nextTimer st) (nextClient st) (nextBrowser st)
    (trace st).

Definition set_chromecastPort (v : option Z) (st : State) : State :=
  MkState (chromecastDeviceName st) (switchOffDelay st) (chromecastIp st) v
    (chromecastClient st) (isCastingStatus st) (castingApplication st)
    (castingMedia st) (volume st) (deviceType st) (deviceId st)
    (switchOffDelayTimer st) (reconnectTimer st) (reconnectCounter st)
    (clock st) (timers st) (nextTimer st) (nextClient st) (nextBrowser st)
    (trace st).

Definition set_chromecastClient (v : option ClientId) (st : State) : State :=
  MkState (chromecastDeviceName st) (switchOffDelay st) (chromecastIp st)
    (chromecastPort st) v (isCastingStatus st) (castingApplication st)
    (castingMedia st) (volume st) (deviceType st) (deviceId st)
    (switchOffDelayTimer st) (reconnectTimer st) (reconnectCounter st)
    (clock st) (timers st) (nextTimer st) (nextClient st) (nextBrowser st)
    (trace st).

Definition set_isCastingStatus (v : bool) (st : State) : State :=
  MkState (chromecastDeviceName st) (switchOffDelay st) (chromecastIp st)
    (chromecastPort st) (chromecastClient st) v (castingApplication st)
    (castingMedia st) (volume st) (deviceType st) (deviceId st)
    (switchOffDelayTimer st) (reconnectTimer st) (reconnectCounter st)
    (clock st) (timers st) (nextTimer st) (nextClient st) (nextBrowser st)
    (trace st).

Definition set_castingApplication (v : option Application) (st : State)
    : State :=
  MkState (chromecastDeviceName st) (switchOffDelay st) (chromecastIp st)
    (chromecastPort st) (chromecastClient st) (isCastingStatus st) v
    (castingMedia st) (volume st) (deviceType st) (deviceId st)
    (switchOffDelayTimer st) (reconnectTimer st) (reconnectCounter st)
    (clock st) (timers st) (nextTimer st) (nextClient st) (nextBrowser st)
    (trace st).

Definition set_castingMedia (v : option MediaId) (st : State) : State :=
  MkState (chromecastDeviceName st) (switchOffDelay st) (chromecastIp st)
    (chromecastPort st) (chromecastClient st) (isCastingStatus st)
    (castingApplication st) v (volume st) (deviceType st) (deviceId st)
    (switchOffDelayTimer st) (reconnectTimer st) (reconnectCounter st)
    (clock st) (timers st) (nextTimer st) (nextClient st) (nextBrowser st)
    (trace st).

Definition set_volume (v : number) (st : State) : State :=
  MkState (chromecastDeviceName st) (switchOffDelay st) (chromecastIp st)
    (chromecastPort st) (chromecastClient st) (isCastingStatus st)
    (castingApplication st) (castingMedia st) v (deviceType st) (deviceId st)
    (switchOffDelayTimer st) (reconnectTimer st) (reconnectCounter st)
    (clock st) (timers st) (nextTimer st) (nextClient st) (nextBrowser st)
    (trace st).

Definition set_deviceType (v : option string) (st : State) : State :=
  MkState (chromecastDeviceName st) (switchOffDelay st) (chromecastIp st)
    (chromecastPort st) (chromecastClient st) (isCastingStatus st)
    (castingApplication st) (castingMedia st) (volume st) v (deviceId st)
    (switchOffDelayTimer st) (reconnectTimer st) (reconnectCounter st)
    (clock st) (timers st) (nextTimer st) (nextClient st) (nextBrowser st)
    (trace st).

Definition set_deviceId (v : option string) (st : State) : State :=
  MkState (chromecastDeviceName st) (switchOffDelay st) (chromecastIp st)
    (chromecastPort st) (chromecastClient st) (isCastingStatus st)
    (castingApplication st) (castingMedia st) (volume st) (deviceType st) v
    (switchOffDelayTimer st) (reconnectTimer st) (reconnectCounter st)
    (clock st) (timers st) (nextTimer st) (nextClient st) (nextBrowser st)
    (trace st).

Definition set_switchOffDelayTimer (v : option TimerId) (st : State) : State :=
  MkState (chromecastDeviceName st) (switchOffDelay st) (chromecastIp st)
    (chromecastPort st) (chromecastClient st) (isCastingStatus st)
    (castingApplication st) (castingMedia st) (volume st) (deviceType st)
    (deviceId st) v (reconnectTimer st) (reconnectCounter st) (clock st)
    (timers st) (nextTimer st) (nextClient st) (nextBrowser st) (trace st).

Definition set_reconnectTimer (v : option TimerId) (st : State) : State :=
  MkState (chromecastDeviceName st) (switchOffDelay st) (chromecastIp st)
    (chromecastPort st) (chromecastClient st) (isCastingStatus st)
    (castingApplication st) (castingMedia st) (volume st) (deviceType st)
    (deviceId st) (switchOffDelayTimer st) v (reconnectCounter st) (clock st)
    (timers st) (nextTimer st) (nextClient st) (nextBrowser st) (trace st).

Definition set_reconnectCounter (v : Z) (st : State) : State :=
  MkState (chromecastDeviceName st) (switchOffDelay st) (chromecastIp st)
    (chromecastPort st) (chromecastClient st) (isCastingStatus st)
    (castingApplication st) (castingMedia st) (volume st) (deviceType st)
    (deviceId st) (switchOffDelayTimer st) (reconnectTimer st) v (clock st)
    (timers st) (nextTimer st) (nextClient st) (nextBrowser st) (trace st).

Definition set_clock (v : Z) (st : State) : State :=
  MkState (chromecastDeviceName st) (switchOffDelay st) (chromecastIp st)
    (chromecastPort st) (chromecastClient st) (isCastingStatus st)
    (castingApplication st) (castingMedia st) (volume st) (deviceType st)
    (deviceId st) (switchOffDelayTimer st) (reconnectTimer st)
    (reconnectCounter st) v (timers st) (nextTimer st) (nextClient st)
    (nextBrowser st) (trace st).

Definition set_timers (v : gmap TimerId Timer) (st : State) : State :=
  MkState (chromecastDeviceName st) (switchOffDelay st) (chromecastIp st)
    (chromecastPort st) (chromecastClient st) (isCastingStatus st)
    (castingApplication st) (castingMedia st) (volume st) (deviceType st)
    (deviceId st) (switchOffDelayTimer st) (reconnectTimer st)
    (reconnectCounter st) (clock st) v (nextTimer st) (nextClient st)
    (nextBrowser st) (trace st).

Definition set_nextTimer (v : TimerId) (st : State) : State :=
  MkState (chromecastDeviceName st) (switchOffDelay st) (chromecastIp st)
    (chromecastPort st) (chromecastClient st) (isCastingStatus st)
    (castingApplication st) (castingMedia st) (volume st) (deviceType st)
    (deviceId st) (switchOffDelayTimer st) (reconnectTimer st)
    (reconnectCounter st) (clock st) (timers st) v (nextClient st)
    (nextBrowser st) (trace st).

Definition set_nextClient (v : ClientId) (st : State) : State :=
  MkState (chromecastDeviceName st) (switchOffDelay st) (chromecastIp st)
    (chromecastPort st) (chromecastClient st) (isCastingStatus st)
    (castingApplication st) (castingMedia st) (volume st) (deviceType st)
    (deviceId st) (switchOffDelayTimer st) (reconnectTimer st)
    (reconnectCounter st) (clock st) (timers st) (nextTimer st) v
    (nextBrowser st) (trace st).

Definition set_nextBrowser (v : BrowserId) (st : State) : State :=
  MkState (chromecastDeviceName st) (switchOffDelay st) (chromecastIp st)
    (chromecastPort st) (chromecastClient st) (isCastingStatus st)
    (castingApplication st) (castingMedia st) (volume st) (deviceType st)
    (deviceId st) (switchOffDelayTimer st) (reconnectTimer st)
    (reconnectCounter st) (clock st) (timers st) (nextTimer st)
    (nextClient st) v (trace st).

Definition set_trace (v : list Effect) (st : State) : State :=
  MkState (chromecastDeviceName st) (switchOffDelay st) (chromecastIp st)
    (chromecastPort st) (chromecastClient st) (isCastingStatus st)
    (castingApplication st) (castingMedia st) (volume st) (deviceType st)
    (deviceId st) (switchOffDelayTimer st) (reconnectTimer st)
    (reconnectCounter st) (clock st) (timers st) (nextTimer st)
    (nextClient st) (nextBrowser st) v.

Definition emit (e : Effect) (st : State) : State :=
  set_trace (e :: trace st) st.

(** ** Timers *)

(** [setTimeout(f, delay)]: the handle returned is [nextTimer] of the state
    before the call. *)
Definition setTimeout (f : TimerAction) (delay : Z) (st : State) : State :=
  set_nextTimer (S (nextTimer st))
    (set_timers
       (<[nextTimer st := MkTimer (clock st + JS.timeout_ms delay) f]>
          (timers st)) st).

(** [clearTimeout(h)]: nothing happens for [null] or a timer that is gone. *)
Definition clearTimeout (h : option TimerId) (st : State) : State :=
  match h with
  | Some id => set_timers (delete id (timers st)) st
  | None => st
  end.

(** ** The methods of [AutomationChromecast] *)

(** [resetClient]: an existing client is closed (an exception of [close] is
    swallowed) and stays in the field. *)
Definition resetClient (st : State) : State :=
  match chromecastClient st with
  | Some c => emit (ClientClose c) st
  | None => set_chromecastClient None st
  end.

Definition setDefaultProperties (resetIpAndPort stopReconnecting : bool)
    (st : State) : State :=
  let st :=
    if resetIpAndPort
    then set_chromecastPort None (set_chromecastIp None st)
    else st in
  let st := resetClient st in
  let st := set_isCastingStatus false st in
  let st := set_castingApplication None st in
  let st := set_castingMedia None st in
  let st := set_volume (JS.of_Z 0) st in
  let st := set_deviceType None st in
  let st := set_deviceId None st in
  let st := set_switchOffDelayTimer None st in
  let st :=
    if stopReconnecting
    then match reconnectTimer st with
         | Some id => clearTimeout (Some id) st
         | None => st
         end
    else st in
  let st := set_reconnectTimer None st in
  if reconnectCounter st =? 0 then set_reconnectCounter 0 st else st.

(** The closure [updateMotionSensor] of [setIsCasting]: it reads
    [this.isCastingStatus] when it runs. *)
Definition updateMotionSensor (st : State) : State :=
  emit (Log (LogMotion (isCastingStatus st)))
    (emit (SetMotionDetected (isCastingStatus st)) st).

Definition setIsCasting (statusBool : bool) (st : State) : State :=
  if Bool.eqb statusBool (isCastingStatus st) then st
  else
    let st :=
      if statusBool
      then set_isCastingStatus true (emit (Log LogPlaying) st)
      else set_isCastingStatus false (emit (Log LogStopped) st) in
    let st := emit (SetSwitchOn (isCastingStatus st)) st in
    if negb (isCastingStatus st) && JS.truthy_Z (switchOffDelay st)
    then
      set_switchOffDelayTimer (Some (nextTimer st))
        (setTimeout UpdateMotionSensor (switchOffDelay st) st)
    else
      let st :=
        match switchOffDelayTimer st with
        | Some id => clearTimeout (Some id) st
        | None => st
        end in
      updateMotionSensor st.

(** [detectChromecast]: a new browser, its restart timer of 30 minutes, and
    the scan started.  The [serviceUp] handler is [serviceUp] below. *)
Definition detectChromecast (st : State) : State :=
  let b := nextBrowser st in
  let st := emit (BrowserCreate b) (set_nextBrowser (S b) st) in
  let st := setTimeout (RestartBrowser b) (30 * 60 * 1000) st in
  let st := emit (Log (LogSearching (chromecastDeviceName st))) st in
  emit (BrowserStart b) st.

(** [clientConnect] up to the call of [connect]; the callback given to
    [connect] is [connectCallback]. *)
Definition clientConnect (st : State) : State :=
  let c := nextClient st in
  let st := emit (ClientNew c) (set_nextClient (S c) st) in
  let st := set_chromecastClient (Some c) st in
  let st :=
    emit (Log (LogConnecting (chromecastIp st) (chromecastPort st))) st in
  emit (ClientConnect c (chromecastIp st) (chromecastPort st)) st.

Definition clientDisconnect (reconnect : bool) (st : State) : State :=
  let st := emit (Log LogDisconnected) st in
  let st := setIsCasting false st in
  let st := setDefaultProperties false true st in
  if reconnect
  then
    if 150 <? reconnectCounter st
    then detectChromecast (emit (Log LogBackoff) st)
    else
      let st := emit (Log LogWaiting) st in
      let st := clearTimeout (reconnectTimer st) st in
      set_reconnectTimer (Some (nextTimer st)) (setTimeout Reconnect 2000 st)
  else st.

Definition clientError (st : State) : State :=
  clientDisconnect true (emit (Log LogClientError) st).

(** The [serviceUp] handler of the browser. *)
Definition serviceUp {engine : JS.Engine}
    (device : Device) (st : State) : State :=
  if String.eqb (JS.toLowerCase (txt_fn device))
       (JS.toLowerCase (chromecastDeviceName st))
  then
    let st := setDefaultProperties true true st in
    let st := set_chromecastIp (head (addresses device)) st in
    let st := set_chromecastPort (Some (port device)) st in
    let st :=
      set_deviceType
        (Some match txt_md device with
              | Some md => if JS.truthy_string md then md else ""
              | None => ""
              end) st in
    let st := set_deviceId (txt_id device) st in
    let st := emit (Log (LogFound (chromecastIp st) (chromecastPort st))) st in
    clientConnect st
  else st.

(** The callback given to [connect].  [layers] tells whether the current
    client has its [connection], [heartbeat] and [receiver]. *)
Definition connectCallback (layers : bool) (st : State) : State :=
  match chromecastClient st with
  | Some c =>
      if layers
      then
        let st := set_reconnectCounter 0 st in
        let st := emit (Log LogConnected) st in
        emit (ClientGetStatus c) st
      else st
  | None => st
  end.

(** How a handler ends: it returns, or it throws a [TypeError] out of the
    handler, in the state reached so far. *)
Inductive completion : Type :=
| Normal (st : State)
| Throw (st : State).

(** [processClientStatus(status)].  [status = None] is [undefined] (or
    [null]): destructuring it throws.  [join_throws] tells whether
    [chromecastClient.join] throws when it is called. *)
Definition processClientStatus (status : option ClientStatus)
    (join_throws : bool) (st : State) : completion :=
  match status with
  | None => Throw st
  | Some status =>
      let currentApplication :=
        match applications status with
        | Some (app :: _) => Some app
        | _ => None
        end in
      let st :=
        match currentApplication with
        | Some currentApplication =>
            let lastMonitoredApplicationStatusId :=
              match castingApplication st with
              | Some a => Some (sessionId a)
              | None => None
              end in
            if match lastMonitoredApplicationStatusId with
               | Some l => negb (String.eqb (sessionId currentApplication) l)
               | None => true
               end
            then
              let app :=
                MkApplication (sessionId currentApplication)
                  (Some (sessionId currentApplication)) in
              let st := set_castingApplication (Some app) st in
              match chromecastClient st with
              | Some c =>
                  let st := emit (ClientJoin c app) st in
                  if join_throws then clientDisconnect true st else st
              | None => clientDisconnect true st
              end
            else st
        | None => set_castingMedia None st
        end in
      let st :=
        match applications status with
        | None => setIsCasting false st
        | Some _ => st
        end in
      let st :=
        match svolume status with
        | Some (MkVolumeObj (Some lvl)) => set_volume lvl st
        | _ => st
        end in
      Normal st
  end.

(** The callback of the status query issued by [connectCallback]: the error
    argument is not looked at. *)
Definition getStatusCallback (err : bool) (status : option ClientStatus)
    (join_throws : bool) (st : State) : completion :=
  processClientStatus status join_throws st.

(** The callback given to [join]; [media = None] is a join that failed. *)
Definition joinCallback (media : option MediaId) (st : State) : completion :=
  match media with
  | None => Throw st
  | Some m =>
      let st := emit (MediaGetStatus m) st in
      let st := emit (MediaOnStatus m) st in
      Normal (set_castingMedia (Some m) st)
  end.

Definition processMediaStatus (status : option MediaStatus) (st : State)
    : State :=
  match status with
  | Some status =>
      match playerState status with
      | Some ps =>
          if JS.truthy_string ps
          then
            if String.eqb ps "PLAYING" || String.eqb ps "BUFFERING"
            then setIsCasting true st
            else setIsCasting false st
          else st
      | None => st
      end
  | None => st
  end.

(** The [get] handler of the [On] and [MotionDetected] characteristics: the
    value given to the callback. *)
Definition isCasting (st : State) : bool := isCastingStatus st.

(** The [get] handler of the [Volume] characteristic. *)
Definition getVolume (st : State) : number :=
  JS.floor (JS.mul (volume st) (JS.of_Z 100)).

(** [setVolume(volume, callback)].  [send_throws] tells whether the client's
    [setVolume] throws; when it does not, the client owns [callback] and
    [volumeCommandDone] runs when it calls back. *)
Definition setVolume (vol : number) (callback : CallbackId)
    (send_throws : bool) (st : State) : State :=
  match chromecastClient st with
  | Some c =>
      let st :=
        emit (ClientSetVolume c (JS.div vol (JS.of_Z 100)) callback) st in
      if send_throws then emit (Invoke callback) st else st
  | None => st
  end.

Definition volumeCommandDone (callback : CallbackId) (st : State) : State :=
  emit (Invoke callback) st.

Definition setCasting (on : bool) (callback : CallbackId) (st : State)
    : State :=
  let currentlyCasting := isCastingStatus st in
  let st := setIsCasting on st in
  match castingMedia st with
  | None => emit (Invoke callback) st
  | Some m =>
      let st :=
        if on && negb currentlyCasting then emit (MediaPlay m) st
        else if negb on && currentlyCasting then emit (MediaPause m) st
        else st in
      emit (Invoke callback) st
  end.

(** A timer that fires leaves the table and runs its action. *)
Definition fire (id : TimerId) (st : State) : State :=
  match timers st !! id with
  | None => st
  | Some t =>
      let st := set_timers (delete id (timers st)) st in
      match action t with
      | RestartBrowser b =>
          detectChromecast (clientDisconnect false (emit (BrowserStop b) st))
      | Reconnect =>
          clientConnect (set_reconnectCounter (reconnectCounter st + 1) st)
      | UpdateMotionSensor => updateMotionSensor st
      end
  end.

(** The pending retry fires: the counter goes up and [clientConnect] runs. *)
Definition retry (st : State) : State :=
  match reconnectTimer st with
  | Some id => fire id st
  | None => st
  end.

(** A retry whose connection attempt fails: the new client emits [error]. *)
Definition failedRetry (st : State) : State := clientError (retry st).

(** The constructor: every field is unset, [setDefaultProperties(true)],
    then discovery.  [switchOffDelay] is [config.switchOffDelay || 0].  The
    unset counter is shown as 0: both are falsy, and [setDefaultProperties]
    sets a falsy counter to 0 before anything reads it. *)
Definition blank (deviceName : string) (delay : option Z) : State :=
  MkState deviceName (default 0 delay) None None None false None None
    (JS.of_Z 0) None None None None 0 0 ∅ 0%nat 0%nat 0%nat [].

Definition constructor (deviceName : string) (delay : option Z) : State :=
  detectChromecast (setDefaultProperties true false (blank deviceName delay)).

(** ** The event loop

    Everything runs in reaction to an event: an announcement from the
    browser, a callback or an event of the client or of the media session, a
    HomeKit request, a timer that fires, or time that passes. *)

Inductive Event : Type :=
| ServiceUp (device : Device)
| ConnectCallback (layers : bool)
| ClientStatusPush (status : ClientStatus) (join_throws : bool)
| GetStatusCallback (err : bool) (status : option ClientStatus)
    (join_throws : bool)
| ClientErrorEvent
| ConnectionDisconnect
| JoinCallback (media : option MediaId)
| MediaStatusPush (status : option MediaStatus)
| HomeKitSetCasting (on : bool) (callback : CallbackId)
| HomeKitSetVolume (vol : number) (callback : CallbackId) (send_throws : bool)
| VolumeCommandDone (callback : CallbackId)
| Fire (id : TimerId)
| Elapse (dt : Z).

Definition step {engine : JS.Engine} (ev : Event) (st : State) : completion :=
  match ev with
  | ServiceUp device => Normal (serviceUp device st)
  | ConnectCallback layers => Normal (connectCallback layers st)
  | ClientStatusPush status jt => processClientStatus (Some status) jt st
  | GetStatusCallback err status jt => getStatusCallback err status jt st
  | ClientErrorEvent => Normal (clientError st)
  | ConnectionDisconnect => Normal (clientDisconnect true st)
  | JoinCallback media => joinCallback media st
  | MediaStatusPush status => Normal (processMediaStatus status st)
  | HomeKitSetCasting on cb => Normal (setCasting on cb st)
  | HomeKitSetVolume vol cb throws => Normal (setVolume vol cb throws st)
  | VolumeCommandDone cb => Normal (volumeCommandDone cb st)
  | Fire id => Normal (fire id st)
  | Elapse dt => Normal (set_clock (clock st + dt) st)
  end.

(** A timer fires once it is due, and time does not pass over a timer that is
    due: the clock stops at each pending timer until it has fired. *)
Definition enabled (ev : Event) (st : State) : bool :=
  match ev with
  | Fire id =>
      match timers st !! id with
      | Some t => due t <=? clock st
      | None => false
      end
  | Elapse dt =>
      (0 <? dt)
      && bool_decide (map_Forall (λ _ t, clock st + dt ≤ due t) (timers st))
  | _ => true
  end.

(** [run st evs st']: the events [evs], each enabled and each handled without
    an exception, lead from [st] to [st']. *)
Inductive run {engine : JS.Engine} : State -> list Event -> State -> Prop :=
| run_nil st : run st [] st
| run_cons st ev st1 evs st2 :
    enabled ev st = true ->
    step ev st = Normal st1 ->
    run st1 evs st2 ->
    run st (ev :: evs) st2.

(** ** Concrete instances used as inputs *)

Module Sample.

(** The samples use names of ASCII characters, on which every engine
    lower-cases alike. *)
#[global] Instance engine : JS.Engine := {|
  JS.toLowerCase := JS.toLowerCase_ascii
|}.

Definition device : Device :=
  MkDevice "Living Room" (Some "Chromecast Audio") (Some "abc123")
    ["192.168.1.20"] 8009.

Definition state_of (c : completion) : State :=
  match c with
  | Normal st | Throw st => st
  end.

(** The device is announced and the connection is established. *)
Definition connect (st : State) : State :=
  connectCallback true (serviceUp device st).

(** The device reports application "A", the join succeeds with media session
    0, and the media session reports playback. *)
Definition play (st : State) : State :=
  let status := MkClientStatus (Some [MkApplication "A" None]) None in
  let st := state_of (processClientStatus (Some status) false st) in
  let st := state_of (joinCallback (Some 0%nat) st) in
  processMediaStatus (Some (MkMediaStatus (Some "PLAYING"))) st.

(** The accessory just constructed: scanning, no client yet. *)
Definition scanning : State := constructor "living room" None.

Definition connected : State := connect scanning.

Definition playing : State := play connected.

(** The same accessory configured with a switch-off delay of 500 ms. *)
Definition scanning_delayed : State := constructor "living room" (Some 500).

Definition playing_delayed : State := play (connect scanning_delayed).

(** The connection was lost and 151 retries failed one after the other: the
    accessory has gone back to discovery. *)
Definition rediscovering : State :=
  Nat.iter 151 failedRetry (clientDisconnect true connected).

End Sample.

(** ** Notions used in the statements *)

(** The player states that mean casting. *)
Definition is_active (ps : string) : bool :=
  String.eqb ps "PLAYING" || String.eqb ps "BUFFERING".

(** Equality of numbers as values of [spec_float] is decidable. *)
#[global] Instance spec_float_eq_dec : EqDecision spec_float.
Proof. solve_decision. Defined.

(** The level that [setVolume(x)] sends. *)
Definition level_of (x : Z) : number := JS.div (JS.of_Z x) (JS.of_Z 100).

(** What the getter shows for a stored level. *)
Definition displayed (lvl : number) : number :=
  JS.floor (JS.mul lvl (JS.of_Z 100)).

(** The targets whose level, multiplied back by 100 in binary64, falls just
    below the integer. *)
Definition rounds_below (x : Z) : bool :=
  (x =? 29) || (x =? 57) || (x =? 58).

(** The number of [join] calls in a trace. *)
Fixpoint joins (tr : list Effect) : nat :=
  match tr with
  | [] => 0
  | ClientJoin _ _ :: tr' => S (joins tr')
  | _ :: tr' => joins tr'
  end.

(** [quiet st st']: from [st] to [st'] the trace has grown by effects none of
    which is a [join]. *)
Definition quiet (st st' : State) : Prop :=
  exists pre, trace st' = pre ++ trace st /\ joins pre = 0%nat.

(** The branch of [clientDisconnect] taken with reconnect intent, after the
    reset. *)
Definition reconnectOrRediscover (st : State) : State :=
  if 150 <? reconnectCounter st
  then detectChromecast (emit (Log LogBackoff) st)
  else
    let st := emit (Log LogWaiting) st in
    let st := clearTimeout (reconnectTimer st) st in
    set_reconnectTimer (Some (nextTimer st)) (setTimeout Reconnect 2000 st).

(** The part of [clientDisconnect] that every call runs. *)
Definition afterReset (st : State) : State :=
  setDefaultProperties false true
    (setIsCasting false (emit (Log LogDisconnected) st)).

(** The announced friendly name is the configured name, letter case
    apart: the two have the same lower-case form on the engine. *)
Definition names_match {engine : JS.Engine}
    (device : Device) (st : State) : Prop :=
  JS.toLowerCase (txt_fn device) = JS.toLowerCase (chromecastDeviceName st).

(** What [txt.md || ''] evaluates to. *)
Definition md_or_empty (md : option string) : string :=
  match md with
  | Some s => if JS.truthy_string s then s else ""
  | None => ""
  end.

(** The candidate with its transport identifier overwritten by its session
    identifier. *)
Definition overwritten (app : Application) : Application :=
  MkApplication (sessionId app) (Some (sessionId app)).

(** The session is replaced and its join attempted: with a client, [join] is
    called with the overwritten candidate as the very next effect, and the
    candidate stays tracked unless [join] throws (the disconnect then clears
    it); without a client the attempt throws before any call. *)
Definition replaced_and_joined
    (st : State) (app : Application) (jt : bool) (st' : State) : Prop :=
  match chromecastClient st with
  | Some c =>
      (exists pre,
          trace st' = pre ++ ClientJoin c (overwritten app) :: trace st
          /\ joins pre = 0%nat)
      /\ castingApplication st' = (if jt then None else Some (overwritten app))
  | None => quiet st st' /\ castingApplication st' = None
  end.

(** The session is not replaced and no join is attempted. *)
Definition left_alone (st st' : State) : Prop :=
  castingApplication st' = castingApplication st
  /\ castingMedia st' = castingMedia st
  /\ trace st' = trace st.

(** The part of [processClientStatus] that handles a candidate whose session
    identifier is new. *)
Definition attach (app : Application) (jt : bool) (st : State) : State :=
  let st := set_castingApplication (Some (overwritten app)) st in
  match chromecastClient st with
  | Some c =>
      let st := emit (ClientJoin c (overwritten app)) st in
      if jt then clientDisconnect true st else st
  | None => clientDisconnect true st
  end.

(** The volume is stored last and touches nothing else. *)
Definition storeVolume (vol : option VolumeObj) (st : State) : State :=
  match vol with
  | Some (MkVolumeObj (Some lvl)) => set_volume lvl st
  | _ => st
  end.

(** Equality of timer actions is decidable. *)
#[global] Instance TimerAction_eq_dec : EqDecision TimerAction.
Proof. solve_decision. Defined.

(** Every pending retry timer is the one whose handle is stored. *)
Definition retries_tracked (st : State) : Prop :=
  map_Forall
    (fun id t => action t = Reconnect -> reconnectTimer st = Some id)
    (timers st).

(** No retry timer is pending. *)
Definition no_retry (st : State) : Prop :=
  map_Forall (fun _ t => action t <> Reconnect) (timers st).

(** Exactly one retry is pending: it is due in 2 seconds and its handle is
    stored. *)
Definition retry_pending (st : State) : Prop :=
  exists id,
    reconnectTimer st = Some id
    /\ timers st !! id = Some (MkTimer (clock st + 2000) Reconnect)
    /\ forall id' t,
         timers st !! id' = Some t -> action t = Reconnect -> id' = id.

(** Discovery has just been started again, on browser [b], and no retry is
    pending. *)
Definition rediscovering (b : BrowserId) (st : State) : Prop :=
  reconnectTimer st = None
  /\ no_retry st
  /\ head (trace st) = Some (BrowserStart b)
  /\ nextBrowser st = S b.

(** The state after the consecutive failure number [S k] since the last
    successful connection: the connection is lost, then [k] retries fail. *)
Definition after_failures (k : nat) (st0 : State) : State :=
  Nat.iter k failedRetry (clientDisconnect true st0).

(** [T] is pending and no field of the instance holds its handle: no
    [clearTimeout] of the code can be given it.  Handles are issued in
    increasing order, and [T] is not overdue. *)
Definition orphaned (T : TimerId) (t : Timer) (st : State) : Prop :=
  timers st !! T = Some t
  /\ switchOffDelayTimer st <> Some T
  /\ reconnectTimer st <> Some T
  /\ (T < nextTimer st)%nat
  /\ clock st <= due t.

(** [T] is a pending delayed update of the motion sensor, whether or not
    [switchOffDelayTimer] still holds its handle. *)
Definition pending_update (T : TimerId) (t : Timer) (st : State) : Prop :=
  timers st !! T = Some t
  /\ action t = UpdateMotionSensor
  /\ JS.truthy_Z (switchOffDelay st) = true
  /\ reconnectTimer st <> Some T
  /\ (T < nextTimer st)%nat
  /\ clock st <= due t.

(** [f] leaves an orphaned timer orphaned. *)
Definition keeps (T : TimerId) (t : Timer) (f : State -> State) : Prop :=
  forall st, orphaned T t st -> orphaned T t (f st).

(** The stored reconnect handle was issued by an earlier [setTimeout]. *)
Definition handle_issued (st : State) : Prop :=
  forall id, reconnectTimer st = Some id -> (id < nextTimer st)%nat.

Definition well_formed (st : State) : Prop :=
  retries_tracked st /\ handle_issued st.

(** After a reset: no retry is pending and no handle is stored. *)
Definition idle (st : State) : Prop :=
  no_retry st /\ reconnectTimer st = None.

(** Every pending delayed update of the motion sensor is the one whose handle
    [switchOffDelayTimer] holds, and one is pending only while the casting
    state is false. *)
Definition motion_tracked (st : State) : Prop :=
  map_Forall
    (fun id t =>
       action t = UpdateMotionSensor ->
       switchOffDelayTimer st = Some id /\ isCastingStatus st = false)
    (timers st).

(** The events that reach the casting state through [setIsCasting] only, or
    do not reach it at all. *)
Definition projector_event (ev : Event) : bool :=
  match ev with
  | MediaStatusPush _ | HomeKitSetCasting _ _ | HomeKitSetVolume _ _ _
  | VolumeCommandDone _ | JoinCallback _ | ConnectCallback _ | Elapse _ =>
      true
  | _ => false
  end.



(** The timer table and the stored handles fit together: every pending timer
    was issued by an earlier [setTimeout], and a stored handle was issued
    too and, if its timer is still pending, names a timer of its own kind. *)
Definition timers_sound (st : State) : Prop :=
  map_Forall (fun id _ => (id < nextTimer st)%nat) (timers st)
  /\ (forall id,
        reconnectTimer st = Some id ->
        (id < nextTimer st)%nat
        /\ forall t, timers st !! id = Some t -> action t = Reconnect)
  /\ (forall id,
        switchOffDelayTimer st = Some id ->
        (id < nextTimer st)%nat
        /\ forall t,
             timers st !! id = Some t -> action t = UpdateMotionSensor).

(** [emits_only P st st']: from [st] to [st'] the trace has grown, and only
    by effects that satisfy [P]. *)
Definition emits_only (P : Effect -> bool) (st st' : State) : Prop :=
  exists pre, trace st' = pre ++ trace st /\ forallb P pre = true.

(** What resetting the session may do: log, report "not casting" to the two
    services, and close the client. *)
Definition reset_effect (e : Effect) : bool :=
  match e with
  | Log _ | SetSwitchOn false | SetMotionDetected false | ClientClose _ =>
      true
  | _ => false
  end.

(** What a disconnect may do: a reset, and the start of a new browser. *)
Definition disconnect_effect (e : Effect) : bool :=
  match e with
  | BrowserCreate _ | BrowserStart _ => true
  | _ => reset_effect e
  end.

(** Any effect. *)
Definition any_effect (e : Effect) : bool := true.

(** The reconnect counter is within its range, and a retry is pending only
    while the counter is at most 150. *)
Definition counter_bounded (st : State) : Prop :=
  0 <= reconnectCounter st <= 151
  /\ map_Forall
       (fun _ t => action t = Reconnect -> reconnectCounter st <= 150)
       (timers st).

(** From [st] to [st'] the counter is unchanged and no retry has been
    scheduled. *)
Definition calm (st st' : State) : Prop :=
  reconnectCounter st' = reconnectCounter st
  /\ forall id t,
       timers st' !! id = Some t -> action t = Reconnect ->
       timers st !! id = Some t.

(** From [st] to [st'] the client field is untouched and the trace has only
    grown. *)
Definition same_client (st st' : State) : Prop :=
  chromecastClient st' = chromecastClient st
  /\ forall e, In e (trace st) -> In e (trace st').

(** While a retry is pending, the client in the field has been closed. *)
Definition closed_while_retrying (st : State) : Prop :=
  forall id t c,
    timers st !! id = Some t -> action t = Reconnect ->
    chromecastClient st = Some c ->
    In (ClientClose c) (trace st).

(** From [st] to [st'] the client field is untouched, and either no retry
    has been scheduled or the client has been closed. *)
Definition settles (st st' : State) : Prop :=
  same_client st st'
  /\ ((forall id t,
          timers st' !! id = Some t -> action t = Reconnect ->
          timers st !! id = Some t)
      \/ (forall c,
            chromecastClient st = Some c -> In (ClientClose c) (trace st'))).

(** The push ends in a disconnect: its candidate is new and joining it
    throws (or there is no client to join with). *)
Definition push_disconnects
    (status : ClientStatus) (jt : bool) (st : State) : bool :=
  match applications status with
  | Some (app :: _) =>
      match castingApplication st with
      | Some tracked => negb (String.eqb (sessionId app) (sessionId tracked))
      | None => true
      end
      && match chromecastClient st with
         | Some _ => jt
         | None => true
         end
  | _ => false
  end.

(** The level that a status payload carries, if any. *)
Definition reported_level (status : ClientStatus) : option number :=
  match svolume status with
  | Some (MkVolumeObj (Some lvl)) => Some lvl
  | _ => None
  end.

(** ** Basic facts about the state projector *)

(** Reduction of field reads over field writes, and nothing else. *)
Ltac ssimpl :=
  cbn [
    chromecastDeviceName switchOffDelay chromecastIp chromecastPort
    chromecastClient isCastingStatus castingApplication castingMedia
    volume deviceType deviceId switchOffDelayTimer reconnectTimer
    reconnectCounter clock timers nextTimer nextClient nextBrowser trace
    set_chromecastIp set_chromecastPort set_chromecastClient
    set_isCastingStatus set_castingApplication set_castingMedia
    set_volume set_deviceType set_deviceId set_switchOffDelayTimer
    set_reconnectTimer set_reconnectCounter set_clock set_timers
    set_nextTimer set_nextClient set_nextBrowser set_trace emit
    setTimeout clearTimeout updateMotionSensor negb andb orb Bool.eqb ].

Tactic Notation "ssimpl" "in" hyp(H) :=
  cbn [
    chromecastDeviceName switchOffDelay chromecastIp chromecastPort
    chromecastClient isCastingStatus castingApplication castingMedia
    volume deviceType deviceId switchOffDelayTimer reconnectTimer
    reconnectCounter clock timers nextTimer nextClient nextBrowser trace
    set_chromecastIp set_chromecastPort set_chromecastClient
    set_isCastingStatus set_castingApplication set_castingMedia
    set_volume set_deviceType set_deviceId set_switchOffDelayTimer
    set_reconnectTimer set_reconnectCounter set_clock set_timers
    set_nextTimer set_nextClient set_nextBrowser set_trace emit
    setTimeout clearTimeout updateMotionSensor negb andb orb Bool.eqb ] in H.

(** Every path through [setIsCasting b st]. *)
Ltac projector_cases b st :=
  unfold setIsCasting;
  destruct b; destruct (isCastingStatus st) eqn:?; ssimpl;
  try destruct (JS.truthy_Z (switchOffDelay st)) eqn:?; ssimpl;
  try destruct (switchOffDelayTimer st) eqn:?; ssimpl.

Lemma setIsCasting_value (b : bool) (st : State) :
  isCastingStatus (setIsCasting b st) = b.
Proof. projector_cases b st; congruence. Qed.

(** [setIsCasting] writes [isCastingStatus], [switchOffDelayTimer], the timer
    table and the trace, and nothing else. *)
Lemma setIsCasting_frame (b : bool) (st : State) :
  let st' := setIsCasting b st in
  chromecastIp st' = chromecastIp st
  /\ chromecastPort st' = chromecastPort st
  /\ chromecastClient st' = chromecastClient st
  /\ castingApplication st' = castingApplication st
  /\ castingMedia st' = castingMedia st
  /\ volume st' = volume st
  /\ reconnectTimer st' = reconnectTimer st
  /\ reconnectCounter st' = reconnectCounter st
  /\ switchOffDelay st' = switchOffDelay st
  /\ clock st' = clock st
  /\ nextClient st' = nextClient st
  /\ nextBrowser st' = nextBrowser st
  /\ chromecastDeviceName st' = chromecastDeviceName st.
Proof. projector_cases b st; repeat split. Qed.

Lemma setIsCasting_same (st : State) :
  setIsCasting (isCastingStatus st) st = st.
Proof.
  unfold setIsCasting. now rewrite Bool.eqb_reflx.
Qed.

Lemma setIsCasting_nextTimer (b : bool) (st : State) :
  (nextTimer st <= nextTimer (setIsCasting b st))%nat.
Proof. projector_cases b st; lia. Qed.

(** ** Device status: applications absent or empty *)

(** C2.  A status whose [applications] field is absent leaves [isCasting]
    false whatever it was before; a status whose [applications] list is
    present and empty clears the media sub-session and leaves the casting
    state, the timers and the collaborators untouched. *)
Theorem status_applications_absent_or_empty
    (st : State) (vol : option VolumeObj) (jt : bool) :
  (exists st',
      processClientStatus (Some (MkClientStatus None vol)) jt st = Normal st'
      /\ isCastingStatus st' = false
      /\ castingMedia st' = None)
  /\ (exists st',
      processClientStatus (Some (MkClientStatus (Some []) vol)) jt st
      = Normal st'
      /\ castingMedia st' = None
      /\ isCastingStatus st' = isCastingStatus st
      /\ trace st' = trace st
      /\ timers st' = timers st).
Proof.
  split; eexists; (split; [reflexivity|]); simpl.
  - pose proof (setIsCasting_value false (set_castingMedia None st)) as Hv.
    pose proof (setIsCasting_frame false (set_castingMedia None st)) as Hf.
    simpl in Hf.
    destruct vol as [[[lvl|]]|]; simpl; split; try exact Hv; apply Hf.
  - destruct vol as [[[lvl|]]|]; simpl; repeat split; reflexivity.
Qed.

(** ** Media status *)

(** C3, as stated, fails: a media status without [playerState] leaves a
    casting state of [true] as it is. *)
Lemma media_status_absent_keeps_casting :
  isCastingStatus Sample.playing = true
  /\ playerState (MkMediaStatus None) = None
  /\ isCastingStatus
       (processMediaStatus (Some (MkMediaStatus None)) Sample.playing)
     <> false.
Proof.
  repeat split. vm_compute. discriminate.
Qed.

(** C3, amended.  A non-empty [playerState] sets the casting state: to true
    for PLAYING and BUFFERING, to false for every other value.  A status that
    is missing, or whose [playerState] is absent or empty, changes nothing. *)
Theorem media_status_sets_casting (st : State) (status : MediaStatus) :
  (forall ps,
      playerState status = Some ps -> ps <> "" ->
      isCastingStatus (processMediaStatus (Some status) st) = is_active ps)
  /\ (playerState status = None \/ playerState status = Some "" ->
      processMediaStatus (Some status) st = st)
  /\ processMediaStatus None st = st.
Proof.
  repeat split.
  - intros ps Hps Hne. unfold processMediaStatus. rewrite Hps.
    assert (Ht : JS.truthy_string ps = true).
    { unfold JS.truthy_string. apply negb_true_iff.
      now apply String.eqb_neq. }
    rewrite Ht. unfold is_active.
    destruct (String.eqb ps "PLAYING" || String.eqb ps "BUFFERING");
      apply setIsCasting_value.
  - intros [H|H]; unfold processMediaStatus; rewrite H; reflexivity.
Qed.

Lemma media_status_sets_casting_witness :
  isCastingStatus
    (processMediaStatus (Some (MkMediaStatus (Some "PAUSED"))) Sample.playing)
  = false
  /\ processMediaStatus (Some (MkMediaStatus None)) Sample.playing
     = Sample.playing.
Proof.
  split.
  - apply (proj1 (media_status_sets_casting Sample.playing
                    (MkMediaStatus (Some "PAUSED"))) "PAUSED");
      [reflexivity | discriminate].
  - apply (proj1 (proj2 (media_status_sets_casting Sample.playing
                           (MkMediaStatus None)))).
    left. reflexivity.
Defined.

(** ** Volume *)

Lemma displayed_level_table :
  forallb
    (fun n : nat =>
       let x := Z.of_nat n in
       bool_decide
         (displayed (level_of x)
          = JS.of_Z (if rounds_below x then x - 1 else x)))
    (seq 0 101) = true.
Proof. vm_compute. reflexivity. Qed.

Lemma displayed_level (x : Z) :
  0 <= x <= 100 ->
  displayed (level_of x) = JS.of_Z (if rounds_below x then x - 1 else x).
Proof.
  intros Hx.
  pose proof displayed_level_table as H.
  rewrite forallb_forall in H.
  assert (Hin : In (Z.to_nat x) (seq 0 101)) by (apply in_seq; lia).
  specialize (H _ Hin). cbv beta zeta in H.
  rewrite Z2Nat.id in H by lia.
  now apply bool_decide_eq_true in H.
Qed.

Lemma status_push_stores_level
    (apps : option (list Application)) (lvl : number) (jt : bool)
    (st : State) :
  exists st',
    processClientStatus
      (Some (MkClientStatus apps (Some (MkVolumeObj (Some lvl))))) jt st
    = Normal st'
    /\ volume st' = lvl.
Proof. eexists. split; reflexivity. Qed.

(** C5: the code misses the callback when there is no client.  On the
    accessory just constructed, [setVolume(50, callback)] returns without
    sending anything and without invoking [callback], whatever the client
    would have done. *)
Theorem setVolume_without_client_never_calls_back :
  chromecastClient Sample.scanning = None
  /\ setVolume (JS.of_Z 50) 1%nat false Sample.scanning = Sample.scanning
  /\ setVolume (JS.of_Z 50) 1%nat true Sample.scanning = Sample.scanning
  /\ ~ In (Invoke 1%nat)
         (trace (setVolume (JS.of_Z 50) 1%nat false Sample.scanning)).
Proof.
  repeat split. simpl. intros H.
  repeat (destruct H as [H|H]; [discriminate H|]). exact H.
Qed.

(** With a client, the command carries the level [vol / 100]; the callback
    is invoked at once when sending throws, and is left to the client
    otherwise. *)
Lemma setVolume_with_client
    (st : State) (c : ClientId) (vol : number) (cb : CallbackId) :
  chromecastClient st = Some c ->
  trace (setVolume vol cb false st)
  = ClientSetVolume c (JS.div vol (JS.of_Z 100)) cb :: trace st
  /\ trace (setVolume vol cb true st)
     = Invoke cb :: ClientSetVolume c (JS.div vol (JS.of_Z 100)) cb
         :: trace st.
Proof. intros H. unfold setVolume. rewrite H. split; reflexivity. Qed.

(** C8, as stated, fails at 29: the level 29/100 times 100 is
    28.999999999999996 in binary64, and its floor is 28. *)
Lemma volume_round_trip_fails_at_29 :
  0 <= 29 <= 100
  /\ exists st',
      processClientStatus
        (Some (MkClientStatus (Some [])
                 (Some (MkVolumeObj (Some (level_of 29))))))
        false
        (setVolume (JS.of_Z 29) 1%nat false Sample.connected)
      = Normal st'
      /\ getVolume st' = JS.of_Z 28
      /\ getVolume st' <> JS.of_Z 29.
Proof.
  split; [lia|]. eexists. split; [reflexivity|].
  split; [vm_compute; reflexivity | vm_compute; discriminate].
Qed.

(** C8, amended.  For an integer [x] from 0 to 100: when a client exists,
    [setVolume(x)] sends it the level [x / 100], once, and nothing else
    (but the callback, when sending throws); when no client exists it sends
    nothing and changes nothing.  In both cases, after a status push that
    reports the level [x / 100] the getter shows the floor of the level
    times 100, computed in binary64: that is [x], except for 29, 57 and 58,
    where it is [x - 1].  The getter floors and does not round: a level of
    0.567 shows as 56. *)
Theorem volume_round_trip
    (x : Z) (st : State) (cb : CallbackId) (throws jt : bool)
    (apps : option (list Application)) :
  0 <= x <= 100 ->
  match chromecastClient st with
  | Some c =>
      trace (setVolume (JS.of_Z x) cb throws st)
      = (if throws then [Invoke cb] else [])
          ++ ClientSetVolume c (level_of x) cb :: trace st
  | None => setVolume (JS.of_Z x) cb throws st = st
  end
  /\ (exists st',
        processClientStatus
          (Some (MkClientStatus apps (Some (MkVolumeObj (Some (level_of x))))))
          jt (setVolume (JS.of_Z x) cb throws st)
        = Normal st'
        /\ getVolume st'
           = JS.of_Z (if rounds_below x then x - 1 else x))
  /\ displayed (JS.of_decimal 567 3) = JS.of_Z 56.
Proof.
  intros Hx. split; [|split].
  - destruct (chromecastClient st) as [c|] eqn:Hc.
    + destruct (setVolume_with_client st c (JS.of_Z x) cb Hc) as [Hf Ht].
      destruct throws; [rewrite Ht | rewrite Hf]; reflexivity.
    + unfold setVolume. now rewrite Hc.
  - destruct (status_push_stores_level apps (level_of x) jt
                (setVolume (JS.of_Z x) cb throws st)) as (st' & Hst & Hv).
    exists st'. split; [exact Hst|].
    unfold getVolume. rewrite Hv. now apply displayed_level.
  - vm_compute. reflexivity.
Qed.

Lemma volume_round_trip_witness :
  0 <= 50 <= 100
  /\ exists st',
      processClientStatus
        (Some (MkClientStatus (Some [])
                 (Some (MkVolumeObj (Some (level_of 50))))))
        false (setVolume (JS.of_Z 50) 1%nat false Sample.connected)
      = Normal st'
      /\ getVolume st' = JS.of_Z 50.
Proof.
  assert (H : 0 <= 50 <= 100) by lia.
  split; [exact H|].
  exact (proj1 (proj2 (volume_round_trip 50 Sample.connected 1%nat false false
                         (Some []) H))).
Defined.

(** ** The status handler and a missing status *)

(** C9.  The callback of the initial status query hands its [status] to
    [processClientStatus] whatever the error argument is; with [status]
    undefined the handler throws, in the state it was called in (no
    disconnect takes place); with a status object it always returns. *)
Theorem status_handler_needs_status_object
    (st : State) (err jt : bool) :
  getStatusCallback err None jt st = Throw st
  /\ (forall status,
        getStatusCallback err (Some status) jt st
        = processClientStatus (Some status) jt st)
  /\ (forall status,
        exists st', processClientStatus (Some status) jt st = Normal st').
Proof.
  split; [reflexivity|]. split; [reflexivity|].
  intros status. eexists. reflexivity.
Qed.

(** ** What a hard reset and a disconnect leave behind *)

(** [setDefaultProperties] in closed form. *)
Lemma setDefaultProperties_result (r s : bool) (st : State) :
  setDefaultProperties r s st
  = MkState (chromecastDeviceName st) (switchOffDelay st)
      (if r then None else chromecastIp st)
      (if r then None else chromecastPort st)
      (chromecastClient st) false None None (JS.of_Z 0) None None None None
      (reconnectCounter st) (clock st)
      (if s then
         match reconnectTimer st with
         | Some id => delete id (timers st)
         | None => timers st
         end
       else timers st)
      (nextTimer st) (nextClient st) (nextBrowser st)
      (match chromecastClient st with
       | Some c => ClientClose c :: trace st
       | None => trace st
       end).
Proof.
  unfold setDefaultProperties, resetClient, clearTimeout.
  destruct st as [? ? ? ? client ? ? ? ? ? ? ? timer counter ? ? ? ? ? ?].
  destruct r, s, client, timer; simpl;
    destruct (counter =? 0) eqn:Hz; simpl;
    try (apply Z.eqb_eq in Hz; rewrite <- Hz); reflexivity.
Qed.

(** [detectChromecast] in closed form. *)
Lemma detectChromecast_result (st : State) :
  detectChromecast st
  = set_trace
      (BrowserStart (nextBrowser st)
         :: Log (LogSearching (chromecastDeviceName st))
         :: BrowserCreate (nextBrowser st) :: trace st)
      (set_nextTimer (S (nextTimer st))
         (set_timers
            (<[nextTimer st
               := MkTimer (clock st + 1800000)
                    (RestartBrowser (nextBrowser st))]> (timers st))
            (set_nextBrowser (S (nextBrowser st)) st))).
Proof. reflexivity. Qed.

Lemma quiet_refl (st : State) : quiet st st.
Proof. exists []. split; reflexivity. Qed.

Lemma joins_app (l1 l2 : list Effect) :
  joins (l1 ++ l2) = (joins l1 + joins l2)%nat.
Proof.
  induction l1 as [|e l1 IH]; [reflexivity|].
  destruct e; simpl; rewrite IH; reflexivity.
Qed.

Lemma quiet_trans (st1 st2 st3 : State) :
  quiet st1 st2 -> quiet st2 st3 -> quiet st1 st3.
Proof.
  intros (p1 & H1 & J1) (p2 & H2 & J2). exists (p2 ++ p1). split.
  - rewrite H2, H1. now rewrite app_assoc.
  - rewrite joins_app, J1, J2. reflexivity.
Qed.

Ltac quiet_by_length :=
  ssimpl;
  first
    [ exists []; split; reflexivity
    | eexists [_]; split; reflexivity
    | eexists [_; _]; split; reflexivity
    | eexists [_; _; _]; split; reflexivity
    | eexists [_; _; _; _]; split; reflexivity ].

Lemma setIsCasting_quiet (b : bool) (st : State) : quiet st (setIsCasting b st).
Proof. unfold quiet. projector_cases b st; quiet_by_length. Qed.

Lemma setDefaultProperties_quiet (r s : bool) (st : State) :
  quiet st (setDefaultProperties r s st).
Proof.
  unfold quiet. rewrite setDefaultProperties_result. ssimpl.
  destruct (chromecastClient st); quiet_by_length.
Qed.

Lemma clientDisconnect_unfold (r : bool) (st : State) :
  clientDisconnect r st
  = if r then reconnectOrRediscover (afterReset st) else afterReset st.
Proof.
  unfold clientDisconnect, reconnectOrRediscover, afterReset. cbv zeta.
  destruct r; reflexivity.
Qed.

Lemma reconnectOrRediscover_quiet (st : State) :
  quiet st (reconnectOrRediscover st).
Proof.
  unfold reconnectOrRediscover, quiet.
  destruct (150 <? reconnectCounter st).
  - rewrite detectChromecast_result. quiet_by_length.
  - ssimpl. destruct (reconnectTimer st); quiet_by_length.
Qed.

Lemma afterReset_quiet (st : State) : quiet st (afterReset st).
Proof.
  unfold afterReset.
  eapply quiet_trans; [|apply setDefaultProperties_quiet].
  eapply quiet_trans; [|apply setIsCasting_quiet].
  unfold quiet. quiet_by_length.
Qed.

Lemma clientDisconnect_quiet (r : bool) (st : State) :
  quiet st (clientDisconnect r st).
Proof.
  rewrite clientDisconnect_unfold.
  destruct r; [|apply afterReset_quiet].
  eapply quiet_trans; [apply afterReset_quiet|].
  apply reconnectOrRediscover_quiet.
Qed.

(** The fields after the reset of a disconnect. *)
Lemma afterReset_result (st : State) :
  afterReset st
  = let st2 := setIsCasting false (emit (Log LogDisconnected) st) in
    MkState (chromecastDeviceName st) (switchOffDelay st)
      (chromecastIp st) (chromecastPort st) (chromecastClient st)
      false None None (JS.of_Z 0) None None None None
      (reconnectCounter st) (clock st)
      (match reconnectTimer st with
       | Some id => delete id (timers st2)
       | None => timers st2
       end)
      (nextTimer st2) (nextClient st) (nextBrowser st)
      (match chromecastClient st with
       | Some c => ClientClose c :: trace st2
       | None => trace st2
       end).
Proof.
  unfold afterReset. rewrite setDefaultProperties_result. cbv zeta.
  pose proof (setIsCasting_frame false (emit (Log LogDisconnected) st)) as F.
  cbv zeta in F. ssimpl in F.
  destruct F as
    (F1 & F2 & F3 & _ & _ & _ & F7 & F8 & F9 & F10 & F11 & F12 & F13).
  rewrite F1, F2, F3, F7, F8, F9, F10, F11, F12, F13. reflexivity.
Qed.

(** The fields a disconnect resets, and the ones it keeps. *)
Lemma clientDisconnect_fields (r : bool) (st : State) :
  let st' := clientDisconnect r st in
  isCastingStatus st' = false
  /\ castingApplication st' = None
  /\ castingMedia st' = None
  /\ volume st' = JS.of_Z 0
  /\ deviceType st' = None
  /\ deviceId st' = None
  /\ switchOffDelayTimer st' = None
  /\ chromecastIp st' = chromecastIp st
  /\ chromecastPort st' = chromecastPort st
  /\ chromecastClient st' = chromecastClient st
  /\ reconnectCounter st' = reconnectCounter st
  /\ clock st' = clock st.
Proof.
  rewrite clientDisconnect_unfold, afterReset_result.
  unfold reconnectOrRediscover. cbv zeta.
  destruct r; [destruct (150 <? _)|]; rewrite ?detectChromecast_result;
    ssimpl; repeat split; reflexivity.
Qed.

Lemma reconnectOrRediscover_timers (st : State) :
  reconnectTimer st = None ->
  timers (reconnectOrRediscover st)
  = if 150 <? reconnectCounter st
    then <[nextTimer st
           := MkTimer (clock st + 1800000) (RestartBrowser (nextBrowser st))]>
           (timers st)
    else <[nextTimer st := MkTimer (clock st + 2000) Reconnect]> (timers st).
Proof.
  intros Hn. unfold reconnectOrRediscover.
  destruct (150 <? reconnectCounter st); [reflexivity|].
  cbv zeta. ssimpl. rewrite Hn. reflexivity.
Qed.

Lemma afterReset_reconnectTimer (st : State) :
  reconnectTimer (afterReset st) = None.
Proof. rewrite afterReset_result. reflexivity. Qed.

Lemma afterReset_nextTimer (st : State) :
  (nextTimer st <= nextTimer (afterReset st))%nat.
Proof.
  rewrite afterReset_result. cbv zeta. ssimpl.
  apply (setIsCasting_nextTimer false (emit (Log LogDisconnected) st)).
Qed.

Lemma afterReset_cancels_retry (st : State) (id : TimerId) :
  reconnectTimer st = Some id -> timers (afterReset st) !! id = None.
Proof.
  intros Hid. rewrite afterReset_result. cbv zeta. ssimpl. rewrite Hid.
  apply lookup_delete_eq.
Qed.

Lemma clientDisconnect_closes_client (r : bool) (st : State) (c : ClientId) :
  chromecastClient st = Some c ->
  In (ClientClose c) (trace (clientDisconnect r st)).
Proof.
  intros Hc. rewrite clientDisconnect_unfold.
  assert (H : In (ClientClose c) (trace (afterReset st))).
  { rewrite afterReset_result. cbv zeta. ssimpl. rewrite Hc. now left. }
  destruct r; [|exact H].
  destruct (reconnectOrRediscover_quiet (afterReset st)) as (pre & -> & _).
  apply in_or_app. now right.
Qed.

Lemma clientDisconnect_cancels_retry (r : bool) (st : State) (id : TimerId) :
  reconnectTimer st = Some id -> (id < nextTimer st)%nat ->
  timers (clientDisconnect r st) !! id = None.
Proof.
  intros Hid Hlt. rewrite clientDisconnect_unfold.
  pose proof (afterReset_cancels_retry st id Hid) as H.
  pose proof (afterReset_nextTimer st) as Hn.
  destruct r; [|exact H].
  rewrite reconnectOrRediscover_timers by apply afterReset_reconnectTimer.
  destruct (150 <? _); (rewrite lookup_insert_ne by lia); exact H.
Qed.

(** ** Disconnect *)

(** C7, as stated, fails: a disconnect keeps the stored address and port. *)
Lemma disconnect_keeps_address_and_port :
  chromecastIp Sample.connected = Some "192.168.1.20"
  /\ chromecastPort Sample.connected = Some 8009
  /\ chromecastIp (clientDisconnect false Sample.connected) <> None
  /\ chromecastPort (clientDisconnect false Sample.connected) <> None
  /\ chromecastIp (clientDisconnect true Sample.connected) <> None
  /\ chromecastPort (clientDisconnect true Sample.connected) <> None.
Proof. repeat split; vm_compute; discriminate. Qed.

(** C7, amended.  Every disconnect, with either reconnect intent, leaves the
    casting state false, clears the application, the media session, the
    volume, the device type and the device id, closes the client (which
    stays in its field), cancels the pending reconnect timer, and keeps the
    stored address and port, which the retry connects to. *)
Theorem disconnect_resets_session_keeps_address (r : bool) (st : State) :
  let st' := clientDisconnect r st in
  isCastingStatus st' = false
  /\ castingApplication st' = None
  /\ castingMedia st' = None
  /\ volume st' = JS.of_Z 0
  /\ deviceType st' = None
  /\ deviceId st' = None
  /\ chromecastIp st' = chromecastIp st
  /\ chromecastPort st' = chromecastPort st
  /\ chromecastClient st' = chromecastClient st
  /\ (forall c, chromecastClient st = Some c -> In (ClientClose c) (trace st'))
  /\ (forall id,
        reconnectTimer st = Some id -> (id < nextTimer st)%nat ->
        timers st' !! id = None).
Proof.
  pose proof (clientDisconnect_fields r st) as F. cbv zeta in *.
  destruct F as (F1 & F2 & F3 & F4 & F5 & F6 & _ & F8 & F9 & F10 & _).
  repeat (split; [assumption|]). split.
  - apply clientDisconnect_closes_client.
  - apply clientDisconnect_cancels_retry.
Qed.

Lemma disconnect_resets_session_keeps_address_witness :
  chromecastIp (clientDisconnect true Sample.connected) = Some "192.168.1.20"
  /\ In (ClientClose 0%nat) (trace (clientDisconnect true Sample.connected)).
Proof.
  pose proof (disconnect_resets_session_keeps_address true Sample.connected)
    as H.
  cbv zeta in H.
  destruct H as (_ & _ & _ & _ & _ & _ & Hip & _ & _ & Hclose & _).
  split; [exact Hip | apply Hclose; reflexivity].
Defined.

(** ** Discovery match *)

(** C6, as stated, fails: after 151 failed retries the accessory is scanning
    again with its counter at 151, and a matching announcement starts the
    connection attempt with the counter still at 151. *)
Lemma announcement_keeps_reconnect_counter :
  names_match Sample.device Sample.rediscovering
  /\ reconnectCounter Sample.rediscovering = 151
  /\ reconnectCounter (serviceUp Sample.device Sample.rediscovering) = 151
  /\ reconnectCounter (serviceUp Sample.device Sample.rediscovering) <> 0.
Proof. repeat split; vm_compute; [reflexivity .. | discriminate]. Qed.

(** [clientConnect] in closed form. *)
Lemma clientConnect_result (st : State) :
  clientConnect st
  = set_trace
      (ClientConnect (nextClient st) (chromecastIp st) (chromecastPort st)
         :: Log (LogConnecting (chromecastIp st) (chromecastPort st))
         :: ClientNew (nextClient st) :: trace st)
      (set_chromecastClient (Some (nextClient st))
         (set_nextClient (S (nextClient st)) st)).
Proof. reflexivity. Qed.

(** C6, amended.  On a matching announcement the hard reset clears the
    address and the port, cancels the pending reconnect timer, closes the
    existing client and leaves the reconnect counter as it is; then the
    announced address, port, device type and device id are recorded and
    [clientConnect] runs, so the connection attempt starts with the counter
    it had before the match.  The counter is 0 once the connection is
    established. *)
Theorem announcement_resets_and_connects {engine : JS.Engine}
    (device : Device) (st : State) :
  names_match device st ->
  let reset := setDefaultProperties true true st in
  let st' := serviceUp device st in
  (chromecastIp reset = None
   /\ chromecastPort reset = None
   /\ reconnectTimer reset = None
   /\ (forall id, reconnectTimer st = Some id -> timers reset !! id = None)
   /\ (forall c, chromecastClient st = Some c ->
         trace reset = ClientClose c :: trace st)
   /\ reconnectCounter reset = reconnectCounter st)
  /\ chromecastIp st' = head (addresses device)
  /\ chromecastPort st' = Some (port device)
  /\ deviceType st' = Some (md_or_empty (txt_md device))
  /\ deviceId st' = txt_id device
  /\ chromecastClient st' = Some (nextClient st)
  /\ timers st' = timers reset
  /\ trace st'
     = ClientConnect (nextClient st) (head (addresses device))
         (Some (port device))
         :: Log (LogConnecting (head (addresses device)) (Some (port device)))
         :: ClientNew (nextClient st)
         :: Log (LogFound (head (addresses device)) (Some (port device)))
         :: trace reset
  /\ reconnectCounter st' = reconnectCounter st
  /\ reconnectCounter (connectCallback true st') = 0.
Proof.
  intros Hm. cbv zeta. split.
  - rewrite setDefaultProperties_result. ssimpl.
    repeat split; try reflexivity.
    + intros id Hid. rewrite Hid. apply lookup_delete_eq.
    + intros c Hc. now rewrite Hc.
  - unfold serviceUp. unfold names_match in Hm. rewrite Hm, String.eqb_refl.
    cbv zeta. rewrite clientConnect_result, setDefaultProperties_result.
    unfold connectCallback. ssimpl. repeat split; reflexivity.
Qed.

Lemma announcement_resets_and_connects_witness :
  chromecastIp (serviceUp Sample.device Sample.rediscovering)
  = Some "192.168.1.20"
  /\ reconnectCounter (serviceUp Sample.device Sample.rediscovering)
     = reconnectCounter Sample.rediscovering
  /\ reconnectCounter
       (connectCallback true (serviceUp Sample.device Sample.rediscovering))
     = 0.
Proof.
  assert (Hm : names_match Sample.device Sample.rediscovering)
    by (vm_compute; reflexivity).
  pose proof (announcement_resets_and_connects Sample.device
                Sample.rediscovering Hm) as H.
  cbv zeta in H.
  destruct H as (_ & Hip & _ & _ & _ & _ & _ & _ & Hc & Hz).
  split; [exact Hip | split; [exact Hc | exact Hz]].
Defined.

(** ** Application sessions *)

Lemma attach_replaced_and_joined
    (st : State) (app : Application) (jt : bool) :
  replaced_and_joined st app jt (attach app jt st).
Proof.
  unfold replaced_and_joined, attach. cbv zeta. ssimpl.
  destruct (chromecastClient st) as [c|].
  - destruct jt.
    + split; [|apply clientDisconnect_fields].
      destruct (clientDisconnect_quiet true
                  (emit (ClientJoin c (overwritten app))
                     (set_castingApplication (Some (overwritten app)) st)))
        as (pre & Hpre & Hj).
      exists pre. split; [exact Hpre | exact Hj].
    + split; [|reflexivity]. exists []. split; reflexivity.
  - split; [|apply clientDisconnect_fields].
    apply (clientDisconnect_quiet true
             (set_castingApplication (Some (overwritten app)) st)).
Qed.

Lemma storeVolume_frame (vol : option VolumeObj) (st : State) :
  castingApplication (storeVolume vol st) = castingApplication st
  /\ castingMedia (storeVolume vol st) = castingMedia st
  /\ trace (storeVolume vol st) = trace st.
Proof. destruct vol as [[[lvl|]]|]; repeat split. Qed.

Lemma processClientStatus_candidate
    (st : State) (app : Application) (rest : list Application)
    (vol : option VolumeObj) (jt : bool) :
  processClientStatus (Some (MkClientStatus (Some (app :: rest)) vol)) jt st
  = Normal
      (storeVolume vol
         (match castingApplication st with
          | Some tracked =>
              if String.eqb (sessionId app) (sessionId tracked)
              then st
              else attach app jt st
          | None => attach app jt st
          end)).
Proof.
  unfold processClientStatus, storeVolume, attach. cbv zeta.
  cbn [applications svolume]. ssimpl.
  destruct (castingApplication st) as [tracked|];
    [destruct (String.eqb (sessionId app) (sessionId tracked))|];
    reflexivity.
Qed.

(** C4.  On a status push whose application list starts with [app]: when no
    session is tracked, or the tracked session identifier differs from the
    candidate's, the candidate replaces the tracked session with its
    transport identifier overwritten by its session identifier, and the join
    is attempted with it; when the identifier is the one already tracked, the
    session is left as it is and no join is attempted. *)
Theorem session_replaced_iff_identifier_changes
    (st : State) (app : Application) (rest : list Application)
    (vol : option VolumeObj) (jt : bool) :
  exists st',
    processClientStatus (Some (MkClientStatus (Some (app :: rest)) vol)) jt st
    = Normal st'
    /\ match castingApplication st with
       | None => replaced_and_joined st app jt st'
       | Some tracked =>
           if String.eqb (sessionId app) (sessionId tracked)
           then left_alone st st'
           else replaced_and_joined st app jt st'
       end.
Proof.
  eexists. split; [apply processClientStatus_candidate|].
  assert (Hr : forall x,
             replaced_and_joined st app jt x ->
             replaced_and_joined st app jt (storeVolume vol x)).
  { intros x. unfold replaced_and_joined, quiet.
    destruct (storeVolume_frame vol x) as (Ha & _ & Ht).
    rewrite Ha, Ht. trivial. }
  destruct (castingApplication st) as [tracked|] eqn:Htr.
  - destruct (String.eqb (sessionId app) (sessionId tracked)).
    + unfold left_alone.
      destruct (storeVolume_frame vol st) as (Ha & Hm & Ht).
      now rewrite Ha, Hm, Ht.
    + apply Hr, attach_replaced_and_joined.
  - apply Hr, attach_replaced_and_joined.
Qed.

(** The scenario of the specification: session A, A again, then B. *)
Example session_scenario_A_A_B :
  let push sid st :=
    match processClientStatus
            (Some (MkClientStatus (Some [MkApplication sid None]) None))
            false st with
    | Normal st' | Throw st' => st'
    end in
  let s1 := push "A" Sample.connected in
  let s2 := push "A" s1 in
  let s3 := push "B" s2 in
  castingApplication s1 = Some (MkApplication "A" (Some "A"))
  /\ joins (trace s1) = 1%nat
  /\ castingApplication s2 = Some (MkApplication "A" (Some "A"))
  /\ joins (trace s2) = 1%nat
  /\ castingApplication s3 = Some (MkApplication "B" (Some "B"))
  /\ joins (trace s3) = 2%nat.
Proof. vm_compute. repeat split. Qed.

(** ** Reconnecting *)

Lemma setIsCasting_timers (b : bool) (st : State) (id : TimerId) (t : Timer) :
  timers (setIsCasting b st) !! id = Some t ->
  timers st !! id = Some t \/ action t = UpdateMotionSensor.
Proof.
  projector_cases b st; intros H; auto;
    first
      [ apply lookup_delete_Some in H; left; apply H
      | apply lookup_insert_Some in H; destruct H as [[_ <-]|[_ H]]; auto ].
Qed.

Lemma afterReset_no_retry (st : State) :
  retries_tracked st -> no_retry (afterReset st).
Proof.
  intros Htr id t Hl Ha. rewrite afterReset_result in Hl. cbv zeta in Hl.
  ssimpl in Hl.
  assert (Hin : forall id',
             timers (setIsCasting false (emit (Log LogDisconnected) st))
               !! id' = Some t ->
             reconnectTimer st = Some id').
  { intros id' H. apply setIsCasting_timers in H.
    destruct H as [H|H]; [|congruence]. exact (Htr id' t H Ha). }
  destruct (reconnectTimer st) as [h|] eqn:Hh.
  - apply lookup_delete_Some in Hl. destruct Hl as [Hne Hl].
    apply Hin in Hl. congruence.
  - apply Hin in Hl. discriminate.
Qed.

Lemma reconnectOrRediscover_trace (st : State) :
  head (trace (reconnectOrRediscover st))
  = Some (if 150 <? reconnectCounter st
          then BrowserStart (nextBrowser st)
          else Log LogWaiting).
Proof.
  unfold reconnectOrRediscover. destruct (150 <? reconnectCounter st).
  - now rewrite detectChromecast_result.
  - cbv zeta. ssimpl. now destruct (reconnectTimer st).
Qed.

Lemma reconnectOrRediscover_fields (st : State) :
  reconnectTimer st = None ->
  reconnectCounter (reconnectOrRediscover st) = reconnectCounter st
  /\ clock (reconnectOrRediscover st) = clock st
  /\ reconnectTimer (reconnectOrRediscover st)
     = (if 150 <? reconnectCounter st then None else Some (nextTimer st))
  /\ nextBrowser (reconnectOrRediscover st)
     = (if 150 <? reconnectCounter st
        then S (nextBrowser st) else nextBrowser st).
Proof.
  intros Hn. unfold reconnectOrRediscover.
  destruct (150 <? reconnectCounter st).
  - rewrite detectChromecast_result. ssimpl. now rewrite Hn.
  - cbv zeta. ssimpl. rewrite Hn. repeat split.
Qed.

Lemma afterReset_fields (st : State) :
  reconnectCounter (afterReset st) = reconnectCounter st
  /\ clock (afterReset st) = clock st
  /\ nextBrowser (afterReset st) = nextBrowser st.
Proof. rewrite afterReset_result. repeat split. Qed.

Lemma reconnectOrRediscover_nextClient (st : State) :
  nextClient (reconnectOrRediscover st) = nextClient st.
Proof.
  unfold reconnectOrRediscover. destruct (150 <? reconnectCounter st).
  - now rewrite detectChromecast_result.
  - cbv zeta. ssimpl. now destruct (reconnectTimer st).
Qed.

Lemma clientDisconnect_nextClient (r : bool) (st : State) :
  nextClient (clientDisconnect r st) = nextClient st.
Proof.
  rewrite clientDisconnect_unfold.
  assert (H : nextClient (afterReset st) = nextClient st)
    by (rewrite afterReset_result; reflexivity).
  destruct r; [|exact H].
  now rewrite reconnectOrRediscover_nextClient.
Qed.

(** A reconnect-intent disconnect with the counter at most 150. *)
Lemma disconnect_schedules_retry (st : State) :
  retries_tracked st -> reconnectCounter st <= 150 ->
  let st' := clientDisconnect true st in
  retry_pending st'
  /\ reconnectCounter st' = reconnectCounter st
  /\ nextBrowser st' = nextBrowser st
  /\ head (trace st') = Some (Log LogWaiting).
Proof.
  intros Htr Hc. cbv zeta. rewrite clientDisconnect_unfold.
  pose proof (afterReset_no_retry st Htr) as Hno.
  pose proof (afterReset_reconnectTimer st) as Hn.
  destruct (afterReset_fields st) as (Fc & Fk & Fb).
  destruct (reconnectOrRediscover_fields _ Hn) as (Gc & Gk & Gt & Gb).
  pose proof (reconnectOrRediscover_timers _ Hn) as Gm.
  pose proof (reconnectOrRediscover_trace (afterReset st)) as Gh.
  assert (Hlt : (150 <? reconnectCounter (afterReset st)) = false)
    by (rewrite Fc; apply Z.ltb_ge; exact Hc).
  rewrite Hlt in Gt, Gb, Gm, Gh.
  split; [|rewrite Gc, Gb; auto].
  exists (nextTimer (afterReset st)). rewrite Gt, Gm, Gk.
  split; [reflexivity|]. split; [apply lookup_insert_eq|].
  intros id' t Hl Ha.
  destruct (decide (id' = nextTimer (afterReset st))) as [|Hne]; [assumption|].
  rewrite lookup_insert_ne in Hl by congruence.
  exfalso. exact (Hno id' t Hl Ha).
Qed.

(** A reconnect-intent disconnect with the counter above 150. *)
Lemma disconnect_rediscovers (st : State) :
  retries_tracked st -> 150 < reconnectCounter st ->
  let st' := clientDisconnect true st in
  rediscovering (nextBrowser st) st'
  /\ reconnectCounter st' = reconnectCounter st.
Proof.
  intros Htr Hc. cbv zeta. rewrite clientDisconnect_unfold.
  pose proof (afterReset_no_retry st Htr) as Hno.
  pose proof (afterReset_reconnectTimer st) as Hn.
  destruct (afterReset_fields st) as (Fc & Fk & Fb).
  destruct (reconnectOrRediscover_fields _ Hn) as (Gc & Gk & Gt & Gb).
  pose proof (reconnectOrRediscover_timers _ Hn) as Gm.
  pose proof (reconnectOrRediscover_trace (afterReset st)) as Gh.
  assert (Hlt : (150 <? reconnectCounter (afterReset st)) = true)
    by (rewrite Fc; apply Z.ltb_lt; exact Hc).
  rewrite Hlt in Gt, Gb, Gm, Gh.
  split; [|rewrite Gc; exact Fc].
  unfold rediscovering. rewrite Gt, Gh, Gb, Fb.
  repeat split. intros id t Hl. rewrite Gm in Hl.
  apply lookup_insert_Some in Hl. destruct Hl as [[_ <-]|[_ Hl]].
  - discriminate.
  - exact (Hno id t Hl).
Qed.

Lemma no_retry_tracked (st : State) : no_retry st -> retries_tracked st.
Proof. intros H id t Hl Ha. exfalso. exact (H id t Hl Ha). Qed.

(** The pending retry fires: the counter goes up by one and [clientConnect]
    runs, on the address and port that the disconnect kept. *)
Lemma retry_fires (st : State) :
  retry_pending st ->
  reconnectCounter (retry st) = reconnectCounter st + 1
  /\ no_retry (retry st)
  /\ nextBrowser (retry st) = nextBrowser st
  /\ head (trace (retry st))
     = Some (ClientConnect (nextClient st) (chromecastIp st)
               (chromecastPort st)).
Proof.
  intros (id & Hh & Hl & Huniq). unfold retry, fire. rewrite Hh, Hl.
  cbn [action]. rewrite clientConnect_result. ssimpl.
  repeat split. intros id' t Hl' Ha. ssimpl in Hl'.
  apply lookup_delete_Some in Hl'. destruct Hl' as [Hne Hl'].
  apply Hne. symmetry. exact (Huniq id' t Hl' Ha).
Qed.

Lemma after_failures_S (k : nat) (st0 : State) :
  after_failures (S k) st0 = failedRetry (after_failures k st0).
Proof. reflexivity. Qed.

Lemma failedRetry_from_pending (st : State) :
  retry_pending st ->
  (reconnectCounter st + 1 <= 150 ->
   retry_pending (failedRetry st)
   /\ reconnectCounter (failedRetry st) = reconnectCounter st + 1
   /\ nextBrowser (failedRetry st) = nextBrowser st
   /\ head (trace (failedRetry st)) = Some (Log LogWaiting))
  /\ (150 < reconnectCounter st + 1 ->
      rediscovering (nextBrowser st) (failedRetry st)).
Proof.
  intros Hp. destruct (retry_fires st Hp) as (Hc & Hno & Hb & _).
  assert (Htr : retries_tracked (emit (Log LogClientError) (retry st)))
    by (apply no_retry_tracked; exact Hno).
  unfold failedRetry, clientError. split; intros Hle.
  - destruct (disconnect_schedules_retry _ Htr) as (H1 & H2 & H3 & H4).
    { ssimpl. lia. }
    ssimpl in H2. ssimpl in H3. rewrite H2, H3, Hc, Hb. auto.
  - destruct (disconnect_rediscovers _ Htr) as (H1 & _).
    { ssimpl. lia. }
    ssimpl in H1. now rewrite Hb in H1.
Qed.

Lemma after_failures_retrying (st0 : State) (k : nat) :
  reconnectCounter st0 = 0 -> retries_tracked st0 -> (k <= 150)%nat ->
  retry_pending (after_failures k st0)
  /\ reconnectCounter (after_failures k st0) = Z.of_nat k
  /\ nextBrowser (after_failures k st0) = nextBrowser st0
  /\ head (trace (after_failures k st0)) = Some (Log LogWaiting).
Proof.
  intros H0 Htr. induction k as [|k IH]; intros Hk.
  - unfold after_failures. cbn [Nat.iter nat_rect].
    destruct (disconnect_schedules_retry st0 Htr) as (H1 & H2 & H3 & H4);
      [lia|].
    rewrite H2, H0. auto.
  - destruct IH as (Hp & Hc & Hb & _); [lia|].
    rewrite after_failures_S.
    destruct (failedRetry_from_pending _ Hp) as [Hstep _].
    destruct Hstep as (H1 & H2 & H3 & H4); [lia|].
    rewrite H2, H3, Hc, Hb. repeat split; [assumption|lia|assumption].
Qed.

(** C1.  From a state whose counter is 0 (a successful connection), count
    the reconnect-intent disconnects that follow one another without a
    success in between: the loss of the connection is the first, and each
    failed retry is the next.  Each disconnect with the counter at most 150
    leaves exactly one retry pending, due 2 seconds later, whose firing adds
    one to the counter and calls [clientConnect]; a disconnect with the
    counter above 150 starts discovery again and leaves no retry pending.
    So failures 1 to 151 (the 150th among them) each schedule a retry, with
    the counter at one less than their number, and failure 152, the one that
    follows 151 failures, starts discovery again. *)
Theorem reconnect_bound (st0 : State) :
  reconnectCounter st0 = 0 ->
  retries_tracked st0 ->
  (forall st,
      retries_tracked st ->
      if reconnectCounter st <=? 150
      then retry_pending (clientDisconnect true st)
           /\ head (trace (clientDisconnect true st)) = Some (Log LogWaiting)
           /\ nextBrowser (clientDisconnect true st) = nextBrowser st
           /\ reconnectCounter (retry (clientDisconnect true st))
              = reconnectCounter st + 1
           /\ head (trace (retry (clientDisconnect true st)))
              = Some (ClientConnect (nextClient st) (chromecastIp st)
                        (chromecastPort st))
      else rediscovering (nextBrowser st) (clientDisconnect true st))
  /\ (forall n,
        (1 <= n <= 151)%nat ->
        retry_pending (after_failures (n - 1) st0)
        /\ reconnectCounter (after_failures (n - 1) st0) = Z.of_nat n - 1
        /\ nextBrowser (after_failures (n - 1) st0) = nextBrowser st0
        /\ head (trace (after_failures (n - 1) st0)) = Some (Log LogWaiting))
  /\ rediscovering (nextBrowser st0) (after_failures 151 st0).
Proof.
  intros H0 Htr0. split; [|split].
  - intros st Htr. destruct (reconnectCounter st <=? 150) eqn:Hle.
    + apply Z.leb_le in Hle.
      destruct (disconnect_schedules_retry st Htr Hle) as (H1 & H2 & H3 & H4).
      destruct (retry_fires _ H1) as (R1 & _ & _ & R4).
      pose proof (clientDisconnect_fields true st) as F. cbv zeta in F.
      destruct F as (_ & _ & _ & _ & _ & _ & _ & Fi & Fp & _).
      rewrite R1, R4, H2, Fi, Fp, clientDisconnect_nextClient. auto.
    + apply Z.leb_gt in Hle.
      apply (disconnect_rediscovers st Htr). lia.
  - intros n Hn.
    destruct (after_failures_retrying st0 (n - 1) H0 Htr0)
      as (H1 & H2 & H3 & H4); [lia|].
    rewrite H2. repeat split; [assumption|lia|assumption|assumption].
  - destruct (after_failures_retrying st0 150 H0 Htr0)
      as (H1 & H2 & H3 & _); [lia|].
    rewrite (after_failures_S 150 st0).
    destruct (failedRetry_from_pending _ H1) as [_ Hre].
    rewrite <- H3. apply Hre. lia.
Qed.

Lemma reconnect_bound_witness :
  retry_pending (after_failures 149 Sample.connected)
  /\ retry_pending (after_failures 150 Sample.connected)
  /\ rediscovering (nextBrowser Sample.connected)
       (after_failures 151 Sample.connected).
Proof.
  assert (H0 : reconnectCounter Sample.connected = 0) by reflexivity.
  assert (Htr : retries_tracked Sample.connected).
  { unfold retries_tracked. apply (bool_decide_unpack _).
    vm_compute. exact I. }
  destruct (reconnect_bound Sample.connected H0 Htr) as (_ & Hn & Hre).
  split; [|split; [|exact Hre]].
  - apply (Hn 150%nat). lia.
  - apply (Hn 151%nat). lia.
Defined.

(** ** The switch-off delay timer across a disconnect *)

Section SwitchOffTimer.

(** A timer [T] with contents [t]. *)
Variables (T : TimerId) (t : Timer).

Ltac orphan_goal :=
  repeat split; ssimpl;
  rewrite ?lookup_insert_ne by lia;
  rewrite ?lookup_delete_ne by congruence;
  first [assumption | congruence | lia | (intros [= ?]; lia)].

Lemma keeps_emit (e : Effect) : keeps T t (emit e).
Proof. intros st H. exact H. Qed.

Lemma keeps_setIsCasting (b : bool) : keeps T t (setIsCasting b).
Proof.
  intros st (Hl & Hs & Hr & Hn & Hc). unfold orphaned.
  projector_cases b st; orphan_goal.
Qed.

Lemma keeps_setDefaultProperties (r s : bool) :
  keeps T t (setDefaultProperties r s).
Proof.
  intros st (Hl & Hs & Hr & Hn & Hc). unfold orphaned.
  rewrite setDefaultProperties_result. ssimpl.
  destruct s, (reconnectTimer st) as [id|]; orphan_goal.
Qed.

Lemma keeps_detectChromecast : keeps T t detectChromecast.
Proof.
  intros st (Hl & Hs & Hr & Hn & Hc). unfold orphaned.
  rewrite detectChromecast_result. orphan_goal.
Qed.

Lemma keeps_clientConnect : keeps T t clientConnect.
Proof.
  intros st (Hl & Hs & Hr & Hn & Hc). unfold orphaned.
  rewrite clientConnect_result. orphan_goal.
Qed.

Lemma keeps_scheduleRetry :
  keeps T t (fun st =>
           set_reconnectTimer (Some (nextTimer st))
             (setTimeout Reconnect 2000 st)).
Proof. intros st (Hl & Hs & Hr & Hn & Hc). unfold orphaned. orphan_goal. Qed.

Lemma keeps_reconnectOrRediscover : keeps T t reconnectOrRediscover.
Proof.
  intros st H. unfold reconnectOrRediscover.
  destruct (150 <? reconnectCounter st).
  - apply keeps_detectChromecast, keeps_emit, H.
  - cbv zeta.
    apply (keeps_scheduleRetry
             (clearTimeout (reconnectTimer (emit (Log LogWaiting) st))
                (emit (Log LogWaiting) st))).
    destruct H as (Hl & Hs & Hr & Hn & Hc). unfold orphaned. ssimpl.
    destruct (reconnectTimer st) as [id|] eqn:E; orphan_goal.
Qed.

Lemma keeps_afterReset : keeps T t afterReset.
Proof.
  intros st H. unfold afterReset.
  apply keeps_setDefaultProperties, keeps_setIsCasting, keeps_emit, H.
Qed.

Lemma keeps_clientDisconnect (r : bool) : keeps T t (clientDisconnect r).
Proof.
  intros st H. rewrite clientDisconnect_unfold.
  destruct r; [apply keeps_reconnectOrRediscover|];
    apply keeps_afterReset, H.
Qed.

Lemma keeps_clientError : keeps T t clientError.
Proof.
  intros st H. unfold clientError.
  apply keeps_clientDisconnect, keeps_emit, H.
Qed.

(** [orphaned] reads five fields only. *)
Lemma orphaned_frame (st st' : State) :
  timers st' = timers st ->
  switchOffDelayTimer st' = switchOffDelayTimer st ->
  reconnectTimer st' = reconnectTimer st ->
  nextTimer st' = nextTimer st ->
  clock st' = clock st ->
  orphaned T t st -> orphaned T t st'.
Proof.
  unfold orphaned. intros -> -> -> -> ->. trivial.
Qed.

Lemma Normal_inj (a b : State) : Normal a = Normal b -> a = b.
Proof. intros [= ->]. reflexivity. Qed.

Ltac same_timers H :=
  match type of H with
  | orphaned T t ?a =>
      revert H; generalize a; intros ? H;
      match type of H with
      | orphaned T t ?x =>
          match goal with
          | |- orphaned T t ?y =>
              apply (orphaned_frame x y); [reflexivity .. | exact H]
          end
      end
  end.

Lemma keeps_serviceUp {engine : JS.Engine}
    (device : Device) : keeps T t (serviceUp device).
Proof.
  intros st H. unfold serviceUp.
  destruct (String.eqb _ _); [|exact H]. cbv zeta.
  apply keeps_clientConnect.
  apply (keeps_setDefaultProperties true true) in H.
  same_timers H.
Qed.

Lemma keeps_connectCallback (layers : bool) :
  keeps T t (connectCallback layers).
Proof.
  intros st H. unfold connectCallback.
  destruct (chromecastClient st) as [c|], layers; exact H.
Qed.

Lemma keeps_storeVolume (vol : option VolumeObj) : keeps T t (storeVolume vol).
Proof.
  intros st H. destruct vol as [[[lvl|]]|]; exact H.
Qed.

Lemma keeps_attach (app : Application) (jt : bool) : keeps T t (attach app jt).
Proof.
  intros st H. unfold attach. cbv zeta. ssimpl.
  assert (H' : orphaned T t
                 (set_castingApplication (Some (overwritten app)) st))
    by same_timers H.
  destruct (chromecastClient st) as [c|].
  - destruct jt; [apply keeps_clientDisconnect|]; apply keeps_emit, H'.
  - apply keeps_clientDisconnect, H'.
Qed.

Lemma processClientStatus_no_candidate
    (status : ClientStatus) (jt : bool) (st : State) :
  match applications status with Some (_ :: _) => False | _ => True end ->
  processClientStatus (Some status) jt st
  = Normal
      (storeVolume (svolume status)
         (match applications status with
          | None => setIsCasting false (set_castingMedia None st)
          | Some _ => set_castingMedia None st
          end)).
Proof.
  destruct status as [apps vol]. cbn [applications svolume].
  unfold processClientStatus, storeVolume. cbn [applications svolume].
  destruct apps as [[|app rest]|]; intros Hc; [reflexivity|easy|reflexivity].
Qed.

Lemma keeps_processClientStatus
    (status : ClientStatus) (jt : bool) (st st' : State) :
  processClientStatus (Some status) jt st = Normal st' ->
  orphaned T t st -> orphaned T t st'.
Proof.
  destruct status as [apps vol]. intros Hp H.
  assert (Hm : orphaned T t (set_castingMedia None st)) by same_timers H.
  destruct apps as [[|app rest]|].
  - rewrite processClientStatus_no_candidate in Hp by exact I.
    injection Hp as <-. apply keeps_storeVolume, Hm.
  - rewrite processClientStatus_candidate in Hp.
    apply Normal_inj in Hp; subst st'.
    apply keeps_storeVolume.
    destruct (castingApplication st) as [tracked|];
      [destruct (String.eqb _ _); [exact H|]|]; apply keeps_attach, H.
  - rewrite processClientStatus_no_candidate in Hp by exact I.
    apply Normal_inj in Hp; subst st'.
    apply keeps_storeVolume, keeps_setIsCasting, Hm.
Qed.

Lemma keeps_joinCallback (media : option MediaId) (st st' : State) :
  joinCallback media st = Normal st' -> orphaned T t st -> orphaned T t st'.
Proof.
  destruct media as [m|]; [|discriminate].
  unfold joinCallback. cbv zeta. intros Hj H.
  apply Normal_inj in Hj; subst st'. exact H.
Qed.

Lemma keeps_processMediaStatus (status : option MediaStatus) :
  keeps T t (processMediaStatus status).
Proof.
  intros st H. unfold processMediaStatus.
  destruct status as [[[ps|]]|]; cbn [playerState]; try exact H.
  destruct (JS.truthy_string ps); [|exact H].
  destruct (_ || _); apply keeps_setIsCasting, H.
Qed.

Lemma keeps_setVolume (vol : number) (cb : CallbackId) (throws : bool) :
  keeps T t (setVolume vol cb throws).
Proof.
  intros st H. unfold setVolume.
  destruct (chromecastClient st) as [c|]; [|exact H].
  cbv zeta. destruct throws; same_timers H.
Qed.

Lemma keeps_setCasting (on : bool) (cb : CallbackId) :
  keeps T t (setCasting on cb).
Proof.
  intros st H. unfold setCasting. cbv zeta.
  pose proof (keeps_setIsCasting on st H) as H'.
  destruct (castingMedia (setIsCasting on st)) as [m|];
    [|apply keeps_emit, H'].
  apply keeps_emit.
  destruct (on && negb (isCastingStatus st));
    [|destruct (negb on && isCastingStatus st)];
    try apply keeps_emit; exact H'.
Qed.

(** Any other timer may fire. *)
Lemma keeps_fire (id : TimerId) : id <> T -> keeps T t (fire id).
Proof.
  intros Hne st H. unfold fire.
  destruct (timers st !! id) as [t'|]; [|exact H]. cbv zeta.
  assert (H' : orphaned T t (set_timers (delete id (timers st)) st)).
  { destruct H as (Hl & Hs & Hr & Hn & Hc). unfold orphaned. ssimpl.
    rewrite lookup_delete_ne by exact Hne. auto. }
  destruct (action t') as [b| |].
  - apply keeps_detectChromecast, keeps_clientDisconnect, keeps_emit, H'.
  - apply keeps_clientConnect. same_timers H'.
  - unfold updateMotionSensor. apply keeps_emit, keeps_emit, H'.
Qed.

(** Time passes, but not over [T]. *)
Lemma keeps_elapse (dt : Z) (st : State) :
  enabled (Elapse dt) st = true ->
  orphaned T t st -> orphaned T t (set_clock (clock st + dt) st).
Proof.
  intros He (Hl & Hs & Hr & Hn & Hc). cbn [enabled] in He.
  apply andb_true_iff in He. destruct He as [_ He].
  apply bool_decide_eq_true in He. specialize (He T t Hl).
  unfold orphaned. ssimpl. auto.
Qed.

(** No event other than the firing of [T] itself removes an orphaned
    timer. *)
Lemma step_keeps_orphaned {engine : JS.Engine} (ev : Event) (st st' : State) :
  ev <> Fire T ->
  enabled ev st = true ->
  step ev st = Normal st' ->
  orphaned T t st -> orphaned T t st'.
Proof.
  intros Hev Hen Hst H.
  destruct ev; unfold step in Hst.
  - apply Normal_inj in Hst; subst st'. apply keeps_serviceUp, H.
  - apply Normal_inj in Hst; subst st'. apply keeps_connectCallback, H.
  - exact (keeps_processClientStatus _ _ _ _ Hst H).
  - unfold getStatusCallback in Hst. destruct status; [|discriminate].
    exact (keeps_processClientStatus _ _ _ _ Hst H).
  - apply Normal_inj in Hst; subst st'. apply keeps_clientError, H.
  - apply Normal_inj in Hst; subst st'. apply keeps_clientDisconnect, H.
  - exact (keeps_joinCallback _ _ _ Hst H).
  - apply Normal_inj in Hst; subst st'. apply keeps_processMediaStatus, H.
  - apply Normal_inj in Hst; subst st'. apply keeps_setCasting, H.
  - apply Normal_inj in Hst; subst st'. apply keeps_setVolume, H.
  - apply Normal_inj in Hst; subst st'. unfold volumeCommandDone.
    apply keeps_emit, H.
  - apply Normal_inj in Hst; subst st'.
    apply keeps_fire; [congruence | exact H].
  - apply Normal_inj in Hst; subst st'. apply keeps_elapse; assumption.
Qed.

Lemma run_keeps_orphaned {engine : JS.Engine}
    (st : State) (evs : list Event) (st' : State) :
  run st evs st' ->
  ~ In (Fire T) evs ->
  orphaned T t st -> orphaned T t st'.
Proof.
  induction 1 as [st|st ev st1 evs st2 Hen Hst Hrun IH]; intros Hnot H.
  - exact H.
  - apply IH.
    + intros Hin. apply Hnot. now right.
    + apply (step_keeps_orphaned ev st st1); try assumption.
      intros ->. apply Hnot. now left.
Qed.

(** A disconnect turns a pending update into an orphan. *)
Lemma disconnect_orphans_update (r : bool) (st : State) :
  pending_update T t st -> orphaned T t (clientDisconnect r st).
Proof.
  intros (Hl & Ha & Hd & Hr & Hn & Hc). rewrite clientDisconnect_unfold.
  assert (H : orphaned T t (afterReset st)).
  { rewrite afterReset_result. cbv zeta. unfold orphaned. ssimpl.
    pose proof (setIsCasting_nextTimer false
                  (emit (Log LogDisconnected) st)) as Hle.
    ssimpl in Hle.
    assert (Hl' : timers (setIsCasting false
                            (emit (Log LogDisconnected) st)) !! T
                  = Some t).
    { unfold setIsCasting. ssimpl. rewrite Hd.
      destruct (isCastingStatus st); ssimpl; [|exact Hl].
      rewrite lookup_insert_ne by lia. exact Hl. }
    repeat split; try easy; try lia.
    destruct (reconnectTimer st) as [id|]; [|exact Hl'].
    rewrite lookup_delete_ne by congruence. exact Hl'. }
  destruct r; [apply keeps_reconnectOrRediscover|]; exact H.
Qed.

End SwitchOffTimer.

Lemma timeout_ms_positive (d : Z) : 1 <= JS.timeout_ms d.
Proof.
  unfold JS.timeout_ms.
  destruct (d <? 1) eqn:E; cbn [orb]; [lia|].
  destruct (2147483647 <? d); lia.
Qed.

(** The transition from casting to not casting, with a switch-off delay. *)
Lemma transition_schedules_update (st : State) :
  0 < switchOffDelay st ->
  isCastingStatus st = true ->
  (forall id, reconnectTimer st = Some id -> (id < nextTimer st)%nat) ->
  let t :=
    MkTimer (clock st + JS.timeout_ms (switchOffDelay st))
      UpdateMotionSensor in
  switchOffDelayTimer (setIsCasting false st) = Some (nextTimer st)
  /\ pending_update (nextTimer st) t (setIsCasting false st).
Proof.
  intros Hd Hc Hfresh. cbv zeta.
  assert (Ht : JS.truthy_Z (switchOffDelay st) = true).
  { unfold JS.truthy_Z. apply negb_true_iff, Z.eqb_neq. lia. }
  pose proof (timeout_ms_positive (switchOffDelay st)) as Hpos.
  unfold setIsCasting, pending_update. rewrite Hc. ssimpl. rewrite Ht. ssimpl.
  split; [reflexivity|]. split; [apply lookup_insert_eq|].
  repeat split; try assumption; try (cbn [due]; lia).
  intros E. apply Hfresh in E. lia.
Qed.

(** C10.  With a positive switch-off delay, the transition from casting to
    not casting schedules the motion-sensor update [T] and stores its
    handle.  A disconnect that occurs while [T] is pending sets the stored
    handle to null and leaves [T] in the timer table.  From then on, through
    any events other than the firing of [T], [T] stays pending with the due
    time it was given, no field holds its handle (so no later transition
    cancels it), the clock cannot pass its due time, it fires exactly when
    the clock is at its due time, and on firing it reports the casting status
    of that moment. *)
Theorem switch_off_update_survives_disconnect {engine : JS.Engine}
    (st : State) (r : bool) :
  0 < switchOffDelay st ->
  isCastingStatus st = true ->
  (forall id, reconnectTimer st = Some id -> (id < nextTimer st)%nat) ->
  let T := nextTimer st in
  let t :=
    MkTimer (clock st + JS.timeout_ms (switchOffDelay st))
      UpdateMotionSensor in
  (switchOffDelayTimer (setIsCasting false st) = Some T
   /\ pending_update T t (setIsCasting false st))
  /\ forall stA,
      pending_update T t stA ->
      switchOffDelayTimer (clientDisconnect r stA) = None
      /\ forall evs stB,
          run (clientDisconnect r stA) evs stB ->
          ~ In (Fire T) evs ->
          timers stB !! T = Some t
          /\ switchOffDelayTimer stB <> Some T
          /\ reconnectTimer stB <> Some T
          /\ clock stB <= due t
          /\ (enabled (Fire T) stB = true <-> clock stB = due t)
          /\ trace (fire T stB)
             = Log (LogMotion (isCastingStatus stB))
                 :: SetMotionDetected (isCastingStatus stB) :: trace stB.
Proof.
  intros Hd Hc Hfresh T t.
  split; [exact (transition_schedules_update st Hd Hc Hfresh)|].
  intros stA HpA. split; [apply clientDisconnect_fields|].
  intros evs stB Hrun Hnot.
  pose proof (disconnect_orphans_update T t r stA HpA) as Ho.
  destruct (run_keeps_orphaned T t _ _ _ Hrun Hnot Ho)
    as (Hl & Hs & Hr & Hn & Hk).
  repeat (split; [assumption|]). split.
  - cbn [enabled]. rewrite Hl. rewrite Z.leb_le. lia.
  - unfold fire. rewrite Hl. reflexivity.
Qed.

Lemma switch_off_update_survives_disconnect_witness :
  switchOffDelayTimer
    (clientDisconnect true (setIsCasting false Sample.playing_delayed))
  = None
  /\ timers
       (clientDisconnect true (setIsCasting false Sample.playing_delayed))
     !! nextTimer Sample.playing_delayed
     = Some (MkTimer (clock Sample.playing_delayed + 500) UpdateMotionSensor).
Proof.
  assert (Hd : 0 < switchOffDelay Sample.playing_delayed) by reflexivity.
  assert (Hc : isCastingStatus Sample.playing_delayed = true)
    by reflexivity.
  assert (Hf : forall id,
             reconnectTimer Sample.playing_delayed = Some id ->
             (id < nextTimer Sample.playing_delayed)%nat)
    by (intros id H; vm_compute in H; discriminate H).
  destruct (switch_off_update_survives_disconnect Sample.playing_delayed true
              Hd Hc Hf) as [[_ Hp] Hrest].
  destruct (Hrest _ Hp) as [Hnull Hruns].
  split; [exact Hnull|].
  destruct (Hruns [] _ (run_nil _)) as [Hl _]; [intros []|].
  exact Hl.
Defined.

(** ** Reachable states

    The hypotheses on timer handles made above hold in every state the
    accessory can reach. *)

Lemma idle_well_formed (st : State) : idle st -> well_formed st.
Proof.
  intros [Hno Hn]. split; [apply no_retry_tracked, Hno|].
  intros id H. congruence.
Qed.

Lemma well_formed_frame (st st' : State) :
  timers st' = timers st ->
  reconnectTimer st' = reconnectTimer st ->
  nextTimer st' = nextTimer st ->
  well_formed st -> well_formed st'.
Proof.
  unfold well_formed, retries_tracked, handle_issued.
  intros -> -> ->. trivial.
Qed.

Lemma setIsCasting_well_formed (b : bool) (st : State) :
  well_formed st -> well_formed (setIsCasting b st).
Proof.
  intros [Htr Hi].
  destruct (setIsCasting_frame b st)
    as (_ & _ & _ & _ & _ & _ & Hr & _).
  split.
  - intros id t Hl Ha. rewrite Hr.
    apply setIsCasting_timers in Hl. destruct Hl as [Hl|Hl]; [|congruence].
    exact (Htr id t Hl Ha).
  - intros id H. rewrite Hr in H. apply Hi in H.
    pose proof (setIsCasting_nextTimer b st). lia.
Qed.

Lemma setDefaultProperties_idle (r : bool) (st : State) :
  well_formed st -> idle (setDefaultProperties r true st).
Proof.
  intros [Htr _]. rewrite setDefaultProperties_result.
  split; [|reflexivity].
  intros id t Hl Ha. ssimpl in Hl.
  destruct (reconnectTimer st) as [h|] eqn:Hh.
  - apply lookup_delete_Some in Hl. destruct Hl as [Hne Hl].
    pose proof (Htr id t Hl Ha). congruence.
  - pose proof (Htr id t Hl Ha). congruence.
Qed.

Lemma afterReset_idle (st : State) : well_formed st -> idle (afterReset st).
Proof.
  intros H. unfold afterReset.
  apply setDefaultProperties_idle, setIsCasting_well_formed.
  exact H.
Qed.

Lemma detectChromecast_well_formed (st : State) :
  well_formed st -> well_formed (detectChromecast st).
Proof.
  intros [Htr Hi]. rewrite detectChromecast_result. split.
  - intros id t Hl Ha. ssimpl in Hl. ssimpl.
    apply lookup_insert_Some in Hl. destruct Hl as [[_ <-]|[_ Hl]].
    + discriminate Ha.
    + exact (Htr id t Hl Ha).
  - intros id H. ssimpl in H. ssimpl. apply Hi in H. lia.
Qed.

Lemma reconnectOrRediscover_well_formed (st : State) :
  idle st -> well_formed (reconnectOrRediscover st).
Proof.
  intros [Hno Hn].
  destruct (reconnectOrRediscover_fields st Hn) as (_ & _ & Ht & _).
  pose proof (reconnectOrRediscover_timers st Hn) as Hm.
  assert (Hnt : (nextTimer st < nextTimer (reconnectOrRediscover st))%nat).
  { unfold reconnectOrRediscover. destruct (150 <? reconnectCounter st).
    - rewrite detectChromecast_result. ssimpl. lia.
    - cbv zeta. ssimpl. destruct (reconnectTimer st); ssimpl; lia. }
  split.
  - intros id t Hl Ha. rewrite Hm in Hl. rewrite Ht.
    destruct (150 <? reconnectCounter st);
      apply lookup_insert_Some in Hl; destruct Hl as [[<- <-]|[_ Hl]];
      try discriminate Ha; try reflexivity;
      exfalso; exact (Hno id t Hl Ha).
  - intros id H. rewrite Ht in H.
    destruct (150 <? reconnectCounter st); [discriminate|].
    injection H as <-. exact Hnt.
Qed.

Lemma clientDisconnect_well_formed (r : bool) (st : State) :
  well_formed st -> well_formed (clientDisconnect r st).
Proof.
  intros H. rewrite clientDisconnect_unfold.
  apply afterReset_idle in H.
  destruct r; [apply reconnectOrRediscover_well_formed|apply idle_well_formed];
    exact H.
Qed.

Lemma clientConnect_well_formed (st : State) :
  well_formed st -> well_formed (clientConnect st).
Proof. rewrite clientConnect_result. apply well_formed_frame; reflexivity. Qed.

Lemma serviceUp_well_formed {engine : JS.Engine}
    (device : Device) (st : State) :
  well_formed st -> well_formed (serviceUp device st).
Proof.
  intros H. unfold serviceUp.
  destruct (String.eqb _ _); [|exact H]. cbv zeta.
  apply clientConnect_well_formed.
  apply (setDefaultProperties_idle true), idle_well_formed in H.
  revert H. generalize (setDefaultProperties true true st). intros x.
  apply well_formed_frame; reflexivity.
Qed.

Lemma attach_well_formed (app : Application) (jt : bool) (st : State) :
  well_formed st -> well_formed (attach app jt st).
Proof.
  intros H. unfold attach. cbv zeta. ssimpl.
  assert (H' : well_formed
                 (set_castingApplication (Some (overwritten app)) st))
    by (revert H; apply well_formed_frame; reflexivity).
  destruct (chromecastClient st) as [c|].
  - destruct jt; [apply clientDisconnect_well_formed|];
      revert H'; apply well_formed_frame; reflexivity.
  - apply clientDisconnect_well_formed, H'.
Qed.

Lemma storeVolume_well_formed (vol : option VolumeObj) (st : State) :
  well_formed st -> well_formed (storeVolume vol st).
Proof. destruct vol as [[[lvl|]]|]; trivial. Qed.

Lemma processClientStatus_well_formed
    (status : ClientStatus) (jt : bool) (st st' : State) :
  processClientStatus (Some status) jt st = Normal st' ->
  well_formed st -> well_formed st'.
Proof.
  destruct status as [apps vol]. intros Hp H.
  assert (Hm : well_formed (set_castingMedia None st)) by exact H.
  destruct apps as [[|app rest]|].
  - rewrite processClientStatus_no_candidate in Hp by exact I.
    apply Normal_inj in Hp; subst st'. apply storeVolume_well_formed, Hm.
  - rewrite processClientStatus_candidate in Hp.
    apply Normal_inj in Hp; subst st'. apply storeVolume_well_formed.
    destruct (castingApplication st) as [tracked|];
      [destruct (String.eqb _ _); [exact H|]|];
      apply attach_well_formed, H.
  - rewrite processClientStatus_no_candidate in Hp by exact I.
    apply Normal_inj in Hp; subst st'.
    apply storeVolume_well_formed, setIsCasting_well_formed, Hm.
Qed.

Lemma fire_well_formed (id : TimerId) (st : State) :
  well_formed st -> well_formed (fire id st).
Proof.
  intros [Htr Hi]. unfold fire.
  destruct (timers st !! id) as [t|] eqn:Hl; [|split; assumption].
  cbv zeta.
  assert (H' : well_formed (set_timers (delete id (timers st)) st)).
  { split; [|exact Hi]. intros id' t' Hl' Ha'. ssimpl in Hl'. ssimpl.
    apply lookup_delete_Some in Hl'. exact (Htr id' t' (proj2 Hl') Ha'). }
  destruct (action t) as [b| |] eqn:Ha.
  - apply detectChromecast_well_formed, clientDisconnect_well_formed.
    exact H'.
  - apply clientConnect_well_formed. exact H'.
  - exact H'.
Qed.

Lemma step_well_formed {engine : JS.Engine} (ev : Event) (st st' : State) :
  step ev st = Normal st' -> well_formed st -> well_formed st'.
Proof.
  intros Hst H. destruct ev; unfold step in Hst.
  - apply Normal_inj in Hst; subst st'. apply serviceUp_well_formed, H.
  - apply Normal_inj in Hst; subst st'. unfold connectCallback.
    destruct (chromecastClient st), layers; exact H.
  - exact (processClientStatus_well_formed _ _ _ _ Hst H).
  - unfold getStatusCallback in Hst. destruct status; [|discriminate].
    exact (processClientStatus_well_formed _ _ _ _ Hst H).
  - apply Normal_inj in Hst; subst st'. unfold clientError.
    apply clientDisconnect_well_formed, H.
  - apply Normal_inj in Hst; subst st'.
    apply clientDisconnect_well_formed, H.
  - destruct media as [m|]; [|discriminate].
    unfold joinCallback in Hst. apply Normal_inj in Hst; subst st'. exact H.
  - apply Normal_inj in Hst; subst st'. unfold processMediaStatus.
    destruct status as [[[ps|]]|]; cbn [playerState]; try exact H.
    destruct (JS.truthy_string ps); [|exact H].
    destruct (_ || _); apply setIsCasting_well_formed, H.
  - apply Normal_inj in Hst; subst st'. unfold setCasting. cbv zeta.
    pose proof (setIsCasting_well_formed on st H) as H'.
    destruct (castingMedia (setIsCasting on st)); [|exact H'].
    destruct (on && negb (isCastingStatus st));
      [|destruct (negb on && isCastingStatus st)]; exact H'.
  - apply Normal_inj in Hst; subst st'. unfold setVolume.
    destruct (chromecastClient st); [destruct send_throws|]; exact H.
  - apply Normal_inj in Hst; subst st'. exact H.
  - apply Normal_inj in Hst; subst st'. apply fire_well_formed, H.
  - apply Normal_inj in Hst; subst st'. exact H.
Qed.

Lemma constructor_well_formed (deviceName : string) (delay : option Z) :
  well_formed (constructor deviceName delay).
Proof.
  unfold constructor. apply detectChromecast_well_formed.
  rewrite setDefaultProperties_result. split.
  - intros id t Hl. ssimpl in Hl. cbn in Hl. now rewrite lookup_empty in Hl.
  - intros id H. discriminate H.
Qed.

(** Every state reached from the constructor by a run of events is well
    formed. *)
Theorem reachable_well_formed {engine : JS.Engine}
    (deviceName : string) (delay : option Z) (evs : list Event) (st : State) :
  run (constructor deviceName delay) evs st -> well_formed st.
Proof.
  intros Hrun. pose proof (constructor_well_formed deviceName delay) as H.
  induction Hrun as [st|st ev st1 evs st2 Hen Hst Hrun IH]; [exact H|].
  apply IH. exact (step_well_formed ev st st1 Hst H).
Qed.

(** ** The state projector on its own *)

Lemma setIsCasting_motion_tracked (b : bool) (st : State) :
  motion_tracked st -> motion_tracked (setIsCasting b st).
Proof.
  intros Hm. projector_cases b st; try exact Hm;
    intros id t Hl Ha; ssimpl in Hl; ssimpl;
    try (apply lookup_delete_Some in Hl; destruct Hl as [Hne Hl]);
    try (apply lookup_insert_Some in Hl;
         destruct Hl as [[<- <-]|[Hne Hl]]; [split; reflexivity|]);
    destruct (Hm id t Hl Ha) as [H1 H2]; congruence.
Qed.

Lemma motion_tracked_frame (st st' : State) :
  timers st' = timers st ->
  switchOffDelayTimer st' = switchOffDelayTimer st ->
  isCastingStatus st' = isCastingStatus st ->
  motion_tracked st -> motion_tracked st'.
Proof. unfold motion_tracked. intros -> -> ->. trivial. Qed.

Lemma processMediaStatus_motion_tracked
    (status : option MediaStatus) (st : State) :
  motion_tracked st -> motion_tracked (processMediaStatus status st).
Proof.
  intros H. unfold processMediaStatus.
  destruct status as [[[ps|]]|]; cbn [playerState]; try exact H.
  destruct (JS.truthy_string ps); [|exact H].
  destruct (_ || _); apply setIsCasting_motion_tracked, H.
Qed.

Lemma setCasting_motion_tracked (on : bool) (cb : CallbackId) (st : State) :
  motion_tracked st -> motion_tracked (setCasting on cb st).
Proof.
  intros H. unfold setCasting. cbv zeta.
  pose proof (setIsCasting_motion_tracked on st H) as H'.
  revert H'. generalize (setIsCasting on st). intros x H'.
  destruct (castingMedia x); [|exact H'].
  destruct (on && negb (isCastingStatus st));
    [|destruct (negb on && isCastingStatus st)]; exact H'.
Qed.

Lemma projector_step_motion_tracked {engine : JS.Engine}
    (ev : Event) (st st' : State) :
  projector_event ev = true ->
  step ev st = Normal st' ->
  motion_tracked st -> motion_tracked st'.
Proof.
  intros Hev Hst H. destruct ev; try discriminate Hev; unfold step in Hst.
  - apply Normal_inj in Hst; subst st'. unfold connectCallback.
    destruct (chromecastClient st), layers; exact H.
  - destruct media as [m|]; [|discriminate].
    unfold joinCallback in Hst. apply Normal_inj in Hst; subst st'. exact H.
  - apply Normal_inj in Hst; subst st'.
    apply processMediaStatus_motion_tracked, H.
  - apply Normal_inj in Hst; subst st'. apply setCasting_motion_tracked, H.
  - apply Normal_inj in Hst; subst st'. unfold setVolume.
    destruct (chromecastClient st); [destruct send_throws|]; exact H.
  - apply Normal_inj in Hst; subst st'. exact H.
  - apply Normal_inj in Hst; subst st'. exact H.
Qed.

Lemma projector_run_motion_tracked {engine : JS.Engine}
    (st : State) (evs : list Event) (st' : State) :
  run st evs st' ->
  forallb projector_event evs = true ->
  motion_tracked st -> motion_tracked st'.
Proof.
  induction 1 as [st|st ev st1 evs st2 Hen Hst Hrun IH]; intros Hall H.
  - exact H.
  - cbn [forallb] in Hall. apply andb_true_iff in Hall.
    destruct Hall as [Hev Hall].
    apply IH; [exact Hall|].
    exact (projector_step_motion_tracked ev st st1 Hev Hst H).
Qed.

(** X1.  Start where every pending delayed motion update is the one whose
    handle is stored (and is pending only while not casting).  Through any
    run of media-status pushes and HomeKit requests this stays so: at most
    one delayed update is pending at any time, and when it fires it reports
    "not casting", the casting state of that moment. *)
Theorem projector_keeps_one_pending_update {engine : JS.Engine}
    (st : State) (evs : list Event) (st' : State) :
  motion_tracked st ->
  run st evs st' ->
  forallb projector_event evs = true ->
  motion_tracked st'
  /\ (forall id1 id2 t1 t2,
        timers st' !! id1 = Some t1 -> action t1 = UpdateMotionSensor ->
        timers st' !! id2 = Some t2 -> action t2 = UpdateMotionSensor ->
        id1 = id2)
  /\ (forall id t,
        timers st' !! id = Some t -> action t = UpdateMotionSensor ->
        isCastingStatus st' = false
        /\ trace (fire id st')
           = Log (LogMotion false) :: SetMotionDetected false :: trace st'
        /\ motion_tracked (fire id st')).
Proof.
  intros H Hrun Hall.
  pose proof (projector_run_motion_tracked st evs st' Hrun Hall H) as H'.
  split; [exact H'|]. split.
  - intros id1 id2 t1 t2 Hl1 Ha1 Hl2 Ha2.
    destruct (H' id1 t1 Hl1 Ha1) as [E1 _].
    destruct (H' id2 t2 Hl2 Ha2) as [E2 _]. congruence.
  - intros id t Hl Ha. destruct (H' id t Hl Ha) as [_ Hc].
    split; [exact Hc|]. unfold fire. rewrite Hl, Ha.
    unfold updateMotionSensor. ssimpl. rewrite Hc. split; [reflexivity|].
    intros id' t' Hl' Ha'. ssimpl in Hl'. ssimpl.
    apply lookup_delete_Some in Hl'.
    exact (H' id' t' (proj2 Hl') Ha').
Qed.

Lemma projector_keeps_one_pending_update_witness :
  exists st',
    run Sample.playing_delayed
      [MediaStatusPush (Some (MkMediaStatus (Some "PAUSED")));
       HomeKitSetCasting false 1%nat] st'
    /\ motion_tracked st'.
Proof.
  assert (H : motion_tracked Sample.playing_delayed).
  { unfold motion_tracked. apply (bool_decide_unpack _).
    vm_compute. exact I. }
  assert (R : exists st',
             run Sample.playing_delayed
               [MediaStatusPush (Some (MkMediaStatus (Some "PAUSED")));
                HomeKitSetCasting false 1%nat] st').
  { eexists.
    eapply run_cons; [reflexivity | reflexivity |].
    eapply run_cons; [reflexivity | reflexivity |]. apply run_nil. }
  destruct R as [st' Hrun]. exists st'. split; [exact Hrun|].
  exact (proj1 (projector_keeps_one_pending_update
                  Sample.playing_delayed _ st' H Hrun eq_refl)).
Defined.

(** X2.  With a switch-off delay, going from casting to not casting and back
    to casting before the delay is over: the switch is updated at once both
    times, the delayed motion update is cancelled (firing its handle later
    does nothing), and the motion sensor is updated once, to "casting". *)
Theorem resume_cancels_delayed_update (st : State) :
  0 < switchOffDelay st ->
  isCastingStatus st = true ->
  let st1 := setIsCasting false st in
  let st2 := setIsCasting true st1 in
  timers st1 !! nextTimer st
  = Some (MkTimer (clock st + JS.timeout_ms (switchOffDelay st))
            UpdateMotionSensor)
  /\ trace st1 = SetSwitchOn false :: Log LogStopped :: trace st
  /\ timers st2 !! nextTimer st = None
  /\ fire (nextTimer st) st2 = st2
  /\ isCastingStatus st2 = true
  /\ trace st2
     = Log (LogMotion true) :: SetMotionDetected true :: SetSwitchOn true
         :: Log LogPlaying :: trace st1.
Proof.
  intros Hd Hc. cbv zeta.
  assert (Ht : JS.truthy_Z (switchOffDelay st) = true).
  { unfold JS.truthy_Z. apply negb_true_iff, Z.eqb_neq. lia. }
  assert (E1 : setIsCasting false st
               = set_switchOffDelayTimer (Some (nextTimer st))
                   (setTimeout UpdateMotionSensor (switchOffDelay st)
                      (emit (SetSwitchOn false)
                         (set_isCastingStatus false
                            (emit (Log LogStopped) st))))).
  { unfold setIsCasting. rewrite Hc. ssimpl. rewrite Ht. reflexivity. }
  rewrite E1. clear E1.
  set (st1 := set_switchOffDelayTimer _ _).
  assert (L1 : timers st1 !! nextTimer st
               = Some (MkTimer (clock st + JS.timeout_ms (switchOffDelay st))
                         UpdateMotionSensor))
    by apply lookup_insert_eq.
  assert (E2 : setIsCasting true st1
               = updateMotionSensor
                   (clearTimeout (Some (nextTimer st))
                      (emit (SetSwitchOn true)
                         (set_isCastingStatus true
                            (emit (Log LogPlaying) st1))))).
  { reflexivity. }
  rewrite E2. clear E2.
  assert (L2 : timers
                 (updateMotionSensor
                    (clearTimeout (Some (nextTimer st))
                       (emit (SetSwitchOn true)
                          (set_isCastingStatus true
                             (emit (Log LogPlaying) st1)))))
               !! nextTimer st = None)
    by apply lookup_delete_eq.
  split; [exact L1|]. split; [reflexivity|]. split; [exact L2|].
  split; [|split; reflexivity].
  unfold fire. rewrite L2. reflexivity.
Qed.

Lemma resume_cancels_delayed_update_witness :
  timers (setIsCasting true (setIsCasting false Sample.playing_delayed))
    !! nextTimer Sample.playing_delayed = None
  /\ isCastingStatus
       (setIsCasting true (setIsCasting false Sample.playing_delayed))
     = true.
Proof.
  assert (Hd : 0 < switchOffDelay Sample.playing_delayed) by reflexivity.
  assert (Hc : isCastingStatus Sample.playing_delayed = true) by reflexivity.
  pose proof (resume_cancels_delayed_update Sample.playing_delayed Hd Hc)
    as H.
  cbv zeta in H. destruct H as (_ & _ & H3 & _ & H5 & _).
  split; [exact H3 | exact H5].
Defined.

(** ** The HomeKit switch *)



(** ** Timer handles in every reachable state *)

Lemma timers_sound_frame (st st' : State) :
  timers st' = timers st ->
  reconnectTimer st' = reconnectTimer st ->
  switchOffDelayTimer st' = switchOffDelayTimer st ->
  nextTimer st' = nextTimer st ->
  timers_sound st -> timers_sound st'.
Proof. unfold timers_sound. intros -> -> -> ->. trivial. Qed.

(** Cancelling any timer. *)
Lemma timers_sound_delete (id : TimerId) (st : State) :
  timers_sound st -> timers_sound (set_timers (delete id (timers st)) st).
Proof.
  intros (H1 & H2 & H3). repeat split; ssimpl.
  - intros i t Hl. apply lookup_delete_Some in Hl. exact (H1 i t (proj2 Hl)).
  - now apply H2.
  - intros t Hl. apply lookup_delete_Some in Hl.
    exact (proj2 (H2 _ H) t (proj2 Hl)).
  - now apply H3.
  - intros t Hl. apply lookup_delete_Some in Hl.
    exact (proj2 (H3 _ H) t (proj2 Hl)).
Qed.

Lemma timers_sound_clearTimeout (h : option TimerId) (st : State) :
  timers_sound st -> timers_sound (clearTimeout h st).
Proof. destruct h; [apply timers_sound_delete|trivial]. Qed.

(** Scheduling a timer whose handle is not stored. *)
Lemma timers_sound_setTimeout (f : TimerAction) (d : Z) (st : State) :
  timers_sound st -> timers_sound (setTimeout f d st).
Proof.
  intros (H1 & H2 & H3). unfold setTimeout. repeat split; ssimpl.
  - intros i t Hl. apply lookup_insert_Some in Hl.
    destruct Hl as [[<- _]|[_ Hl]]; [lia|].
    pose proof (H1 i t Hl) as Hi. cbv beta in Hi. lia.
  - apply H2 in H. lia.
  - intros t Hl. destruct (H2 _ H) as [Hlt Hk].
    rewrite lookup_insert_ne in Hl by lia. exact (Hk t Hl).
  - apply H3 in H. lia.
  - intros t Hl. destruct (H3 _ H) as [Hlt Hk].
    rewrite lookup_insert_ne in Hl by lia. exact (Hk t Hl).
Qed.

(** Scheduling a retry and storing its handle. *)
Lemma timers_sound_schedule_retry (d : Z) (st : State) :
  timers_sound st ->
  timers_sound
    (set_reconnectTimer (Some (nextTimer st)) (setTimeout Reconnect d st)).
Proof.
  intros H. pose proof (timers_sound_setTimeout Reconnect d st H)
    as (H1 & _ & H3).
  repeat split; ssimpl.
  - exact H1.
  - injection H0 as <-. lia.
  - injection H0 as <-. intros t Hl. ssimpl in Hl.
    rewrite lookup_insert_eq in Hl. now injection Hl as <-.
  - now apply H3.
  - now apply H3.
Qed.

(** Scheduling a motion update and storing its handle. *)
Lemma timers_sound_schedule_update (d : Z) (st : State) :
  timers_sound st ->
  timers_sound
    (set_switchOffDelayTimer (Some (nextTimer st))
       (setTimeout UpdateMotionSensor d st)).
Proof.
  intros H. pose proof (timers_sound_setTimeout UpdateMotionSensor d st H)
    as (H1 & H2 & _).
  repeat split; ssimpl.
  - exact H1.
  - now apply H2.
  - now apply H2.
  - injection H0 as <-. lia.
  - injection H0 as <-. intros t Hl. ssimpl in Hl.
    rewrite lookup_insert_eq in Hl. now injection Hl as <-.
Qed.

Lemma setIsCasting_timers_sound (b : bool) (st : State) :
  timers_sound st -> timers_sound (setIsCasting b st).
Proof.
  intros H. unfold setIsCasting.
  destruct (Bool.eqb b (isCastingStatus st)); [exact H|]. cbv zeta.
  set (st1 := emit _ (if b then _ else _)).
  assert (H1 : timers_sound st1).
  { subst st1. destruct b; exact H. }
  clearbody st1.
  destruct (negb (isCastingStatus st1) && JS.truthy_Z (switchOffDelay st1)).
  - apply timers_sound_schedule_update, H1.
  - unfold updateMotionSensor.
    destruct (switchOffDelayTimer st1) as [h|].
    + apply (timers_sound_clearTimeout (Some h)) in H1. exact H1.
    + exact H1.
Qed.

Lemma setDefaultProperties_timers_sound (r s : bool) (st : State) :
  timers_sound st -> timers_sound (setDefaultProperties r s st).
Proof.
  intros H. rewrite setDefaultProperties_result.
  assert (H' : timers_sound
                 (if s then clearTimeout (reconnectTimer st) st else st)).
  { destruct s; [apply timers_sound_clearTimeout|]; exact H. }
  destruct H' as (H1 & _ & _). repeat split; ssimpl; try discriminate.
  intros i t Hl. unfold clearTimeout in H1.
  destruct s, (reconnectTimer st); exact (H1 i t Hl).
Qed.

Lemma detectChromecast_timers_sound (st : State) :
  timers_sound st -> timers_sound (detectChromecast st).
Proof.
  intros H. rewrite detectChromecast_result.
  apply (timers_sound_setTimeout (RestartBrowser (nextBrowser st)) 1800000)
    in H.
  exact H.
Qed.

Lemma reconnectOrRediscover_timers_sound (st : State) :
  timers_sound st -> timers_sound (reconnectOrRediscover st).
Proof.
  intros H. unfold reconnectOrRediscover.
  destruct (150 <? reconnectCounter st).
  - apply detectChromecast_timers_sound. exact H.
  - cbv zeta.
    apply (timers_sound_schedule_retry 2000
             (clearTimeout (reconnectTimer (emit (Log LogWaiting) st))
                (emit (Log LogWaiting) st))).
    apply timers_sound_clearTimeout. exact H.
Qed.

Lemma clientDisconnect_timers_sound (r : bool) (st : State) :
  timers_sound st -> timers_sound (clientDisconnect r st).
Proof.
  intros H. rewrite clientDisconnect_unfold.
  assert (H' : timers_sound (afterReset st)).
  { unfold afterReset.
    apply setDefaultProperties_timers_sound, setIsCasting_timers_sound.
    exact H. }
  destruct r; [apply reconnectOrRediscover_timers_sound|]; exact H'.
Qed.

Lemma clientConnect_timers_sound (st : State) :
  timers_sound st -> timers_sound (clientConnect st).
Proof.
  rewrite clientConnect_result. apply timers_sound_frame; reflexivity.
Qed.

Lemma serviceUp_timers_sound {engine : JS.Engine}
    (device : Device) (st : State) :
  timers_sound st -> timers_sound (serviceUp device st).
Proof.
  intros H. unfold serviceUp.
  destruct (String.eqb _ _); [|exact H]. cbv zeta.
  apply clientConnect_timers_sound.
  apply (setDefaultProperties_timers_sound true true) in H.
  revert H. generalize (setDefaultProperties true true st). intros x.
  apply timers_sound_frame; reflexivity.
Qed.

Lemma attach_timers_sound (app : Application) (jt : bool) (st : State) :
  timers_sound st -> timers_sound (attach app jt st).
Proof.
  intros H. unfold attach. cbv zeta. ssimpl.
  assert (H' : timers_sound
                 (set_castingApplication (Some (overwritten app)) st))
    by exact H.
  destruct (chromecastClient st) as [c|].
  - destruct jt; [apply clientDisconnect_timers_sound|]; exact H'.
  - apply clientDisconnect_timers_sound, H'.
Qed.

Lemma processClientStatus_timers_sound
    (status : ClientStatus) (jt : bool) (st st' : State) :
  processClientStatus (Some status) jt st = Normal st' ->
  timers_sound st -> timers_sound st'.
Proof.
  destruct status as [apps vol]. intros Hp H.
  assert (Hv : forall x, timers_sound x -> timers_sound (storeVolume vol x))
    by (intros x; destruct vol as [[[lvl|]]|]; trivial).
  assert (Hm : timers_sound (set_castingMedia None st)) by exact H.
  destruct apps as [[|app rest]|].
  - rewrite processClientStatus_no_candidate in Hp by exact I.
    apply Normal_inj in Hp; subst st'. apply Hv, Hm.
  - rewrite processClientStatus_candidate in Hp.
    apply Normal_inj in Hp; subst st'. apply Hv.
    destruct (castingApplication st) as [tracked|];
      [destruct (String.eqb _ _); [exact H|]|];
      apply attach_timers_sound, H.
  - rewrite processClientStatus_no_candidate in Hp by exact I.
    apply Normal_inj in Hp; subst st'.
    apply Hv, setIsCasting_timers_sound, Hm.
Qed.

Lemma fire_timers_sound (id : TimerId) (st : State) :
  timers_sound st -> timers_sound (fire id st).
Proof.
  intros H. unfold fire.
  destruct (timers st !! id) as [t|]; [|exact H]. cbv zeta.
  apply (timers_sound_delete id) in H.
  destruct (action t) as [b| |].
  - apply detectChromecast_timers_sound, clientDisconnect_timers_sound.
    exact H.
  - apply clientConnect_timers_sound. exact H.
  - exact H.
Qed.

Lemma step_timers_sound {engine : JS.Engine} (ev : Event) (st st' : State) :
  step ev st = Normal st' -> timers_sound st -> timers_sound st'.
Proof.
  intros Hst H. destruct ev; unfold step in Hst.
  - apply Normal_inj in Hst; subst st'. apply serviceUp_timers_sound, H.
  - apply Normal_inj in Hst; subst st'. unfold connectCallback.
    destruct (chromecastClient st), layers; exact H.
  - exact (processClientStatus_timers_sound _ _ _ _ Hst H).
  - unfold getStatusCallback in Hst. destruct status; [|discriminate].
    exact (processClientStatus_timers_sound _ _ _ _ Hst H).
  - apply Normal_inj in Hst; subst st'. unfold clientError.
    apply clientDisconnect_timers_sound, H.
  - apply Normal_inj in Hst; subst st'.
    apply clientDisconnect_timers_sound, H.
  - destruct media as [m|]; [|discriminate].
    unfold joinCallback in Hst. apply Normal_inj in Hst; subst st'. exact H.
  - apply Normal_inj in Hst; subst st'. unfold processMediaStatus.
    destruct status as [[[ps|]]|]; cbn [playerState]; try exact H.
    destruct (JS.truthy_string ps); [|exact H].
    destruct (_ || _); apply setIsCasting_timers_sound, H.
  - apply Normal_inj in Hst; subst st'. unfold setCasting. cbv zeta.
    pose proof (setIsCasting_timers_sound on st H) as H'.
    destruct (castingMedia (setIsCasting on st)); [|exact H'].
    destruct (on && negb (isCastingStatus st));
      [|destruct (negb on && isCastingStatus st)]; exact H'.
  - apply Normal_inj in Hst; subst st'. unfold setVolume.
    destruct (chromecastClient st); [destruct send_throws|]; exact H.
  - apply Normal_inj in Hst; subst st'. exact H.
  - apply Normal_inj in Hst; subst st'. apply fire_timers_sound, H.
  - apply Normal_inj in Hst; subst st'. exact H.
Qed.

Lemma constructor_timers_sound (deviceName : string) (delay : option Z) :
  timers_sound (constructor deviceName delay).
Proof.
  unfold constructor. apply detectChromecast_timers_sound.
  rewrite setDefaultProperties_result. repeat split; ssimpl; try discriminate.
  all: intros i t Hl; cbn in Hl; now rewrite lookup_empty in Hl.
Qed.

Lemma run_timers_sound {engine : JS.Engine}
    (st : State) (evs : list Event) (st' : State) :
  run st evs st' -> timers_sound st -> timers_sound st'.
Proof.
  induction 1 as [st|st ev st1 evs st2 Hen Hst Hrun IH]; intros H;
    [exact H|].
  apply IH. exact (step_timers_sound ev st st1 Hst H).
Qed.

(** X4.  In every state reached from the constructor: [setTimeout] hands out
    a handle that no pending timer has, so scheduling never replaces a
    pending timer; and the handle stored in [reconnectTimer] or in
    [switchOffDelayTimer] never names a pending timer of another kind, so
    the [clearTimeout] calls of the code cancel a retry, respectively a
    motion update, or nothing. *)
Theorem reachable_timer_handles {engine : JS.Engine}
    (deviceName : string) (delay : option Z) (evs : list Event) (st : State) :
  run (constructor deviceName delay) evs st ->
  timers st !! nextTimer st = None
  /\ (forall id t,
        reconnectTimer st = Some id -> timers st !! id = Some t ->
        action t = Reconnect)
  /\ (forall id t,
        switchOffDelayTimer st = Some id -> timers st !! id = Some t ->
        action t = UpdateMotionSensor).
Proof.
  intros Hrun.
  destruct (run_timers_sound _ _ _ Hrun
              (constructor_timers_sound deviceName delay)) as (H1 & H2 & H3).
  split; [|split].
  - destruct (timers st !! nextTimer st) as [t|] eqn:Hl; [|reflexivity].
    pose proof (H1 _ _ Hl) as Hi. cbv beta in Hi. lia.
  - intros id t Hh Hl. exact (proj2 (H2 id Hh) t Hl).
  - intros id t Hh Hl. exact (proj2 (H3 id Hh) t Hl).
Qed.

Lemma reachable_timer_handles_witness :
  exists st,
    run (constructor "living room" None)
      [ServiceUp Sample.device; ConnectCallback true; ConnectionDisconnect]
      st
    /\ timers st !! nextTimer st = None.
Proof.
  assert (R : exists st,
             run (constructor "living room" None)
               [ServiceUp Sample.device; ConnectCallback true;
                ConnectionDisconnect] st).
  { eexists.
    eapply run_cons; [reflexivity | reflexivity |].
    eapply run_cons; [reflexivity | reflexivity |].
    eapply run_cons; [reflexivity | reflexivity |]. apply run_nil. }
  destruct R as [st R]. exists st. split; [exact R|].
  exact (proj1 (reachable_timer_handles _ _ _ _ R)).
Defined.

(** ** What a disconnect does to the collaborators *)

Lemma emits_only_refl (P : Effect -> bool) (st : State) : emits_only P st st.
Proof. exists []. split; reflexivity. Qed.

Lemma emits_only_trans (P : Effect -> bool) (st1 st2 st3 : State) :
  emits_only P st1 st2 -> emits_only P st2 st3 -> emits_only P st1 st3.
Proof.
  intros (p1 & H1 & J1) (p2 & H2 & J2). exists (p2 ++ p1). split.
  - rewrite H2, H1. now rewrite app_assoc.
  - rewrite forallb_app, J1, J2. reflexivity.
Qed.

Lemma emits_only_weaken (P Q : Effect -> bool) (st st' : State) :
  (forall e, P e = true -> Q e = true) ->
  emits_only P st st' -> emits_only Q st st'.
Proof.
  intros HPQ (pre & H & J). exists pre. split; [exact H|].
  rewrite forallb_forall in *. auto.
Qed.

Lemma emits_only_In (P : Effect -> bool) (st st' : State) (e : Effect) :
  emits_only P st st' -> In e (trace st) -> In e (trace st').
Proof.
  intros (pre & H & _) Hin. rewrite H. apply in_or_app. now right.
Qed.

(** An effect that [P] excludes is in the trace after only if it was
    before. *)
Lemma emits_only_excludes (P : Effect -> bool) (st st' : State) (e : Effect) :
  emits_only P st st' -> P e = false ->
  In e (trace st') -> In e (trace st).
Proof.
  intros (pre & H & J) He Hin. rewrite H in Hin.
  apply in_app_or in Hin. destruct Hin as [Hin|Hin]; [|exact Hin].
  rewrite forallb_forall in J. apply J in Hin. congruence.
Qed.

Lemma reset_is_disconnect_effect (e : Effect) :
  reset_effect e = true -> disconnect_effect e = true.
Proof. destruct e; trivial; discriminate. Qed.

Lemma setIsCasting_false_emits (st : State) :
  emits_only reset_effect st (setIsCasting false st).
Proof.
  unfold emits_only, setIsCasting.
  destruct (isCastingStatus st) eqn:Hc; ssimpl; [|quiet_by_length].
  destruct (JS.truthy_Z (switchOffDelay st)); ssimpl; [quiet_by_length|].
  destruct (switchOffDelayTimer st); quiet_by_length.
Qed.

Lemma setDefaultProperties_emits (r s : bool) (st : State) :
  emits_only reset_effect st (setDefaultProperties r s st).
Proof.
  unfold emits_only. rewrite setDefaultProperties_result. ssimpl.
  destruct (chromecastClient st); quiet_by_length.
Qed.

Lemma afterReset_emits (st : State) :
  emits_only reset_effect st (afterReset st).
Proof.
  unfold afterReset.
  eapply emits_only_trans; [|apply setDefaultProperties_emits].
  eapply emits_only_trans; [|apply setIsCasting_false_emits].
  unfold emits_only. quiet_by_length.
Qed.

Lemma reconnectOrRediscover_emits (st : State) :
  emits_only disconnect_effect st (reconnectOrRediscover st).
Proof.
  unfold reconnectOrRediscover, emits_only.
  destruct (150 <? reconnectCounter st).
  - rewrite detectChromecast_result. quiet_by_length.
  - ssimpl. destruct (reconnectTimer st); quiet_by_length.
Qed.

(** X5.  A disconnect only logs, reports "not casting" to the switch and the
    motion sensor, and closes the client; with reconnect intent it may also
    create and start a browser.  It never stops a browser, never creates or
    connects a client, never sends a command to the device or to the media
    session, and never invokes a HomeKit callback. *)
Theorem disconnect_effects (st : State) :
  emits_only reset_effect st (clientDisconnect false st)
  /\ emits_only disconnect_effect st (clientDisconnect true st)
  /\ forall r e,
       disconnect_effect e = false ->
       In e (trace (clientDisconnect r st)) -> In e (trace st).
Proof.
  assert (Hf : emits_only reset_effect st (clientDisconnect false st)).
  { rewrite clientDisconnect_unfold. apply afterReset_emits. }
  assert (Ht : emits_only disconnect_effect st (clientDisconnect true st)).
  { rewrite clientDisconnect_unfold.
    eapply emits_only_trans; [|apply reconnectOrRediscover_emits].
    eapply emits_only_weaken; [exact reset_is_disconnect_effect|].
    apply afterReset_emits. }
  split; [exact Hf|]. split; [exact Ht|].
  intros r e He. destruct r.
  - exact (emits_only_excludes _ _ _ e Ht He).
  - apply (emits_only_excludes disconnect_effect); [|exact He].
    eapply emits_only_weaken; [exact reset_is_disconnect_effect|exact Hf].
Qed.

(** ** Browsers: the periodic restart and the backoff *)

Lemma retries_tracked_delete (id : TimerId) (st : State) :
  retries_tracked st ->
  retries_tracked (set_timers (delete id (timers st)) st).
Proof.
  intros H i t Hl Ha. ssimpl in Hl. ssimpl.
  apply lookup_delete_Some in Hl. exact (H i t (proj2 Hl) Ha).
Qed.

Lemma detectChromecast_no_retry (st : State) :
  no_retry st -> no_retry (detectChromecast st).
Proof.
  intros H i t Hl. rewrite detectChromecast_result in Hl. ssimpl in Hl.
  apply lookup_insert_Some in Hl. destruct Hl as [[_ <-]|[_ Hl]].
  - discriminate.
  - exact (H i t Hl).
Qed.

Lemma afterReset_closes_client (st : State) (c : ClientId) :
  chromecastClient st = Some c -> In (ClientClose c) (trace (afterReset st)).
Proof.
  intros Hc. rewrite afterReset_result. cbv zeta. ssimpl. rewrite Hc.
  now left.
Qed.

(** The fields after the reset, read off [clientDisconnect(false)]. *)
Lemma afterReset_session (st : State) :
  isCastingStatus (afterReset st) = false
  /\ castingMedia (afterReset st) = None
  /\ chromecastIp (afterReset st) = chromecastIp st
  /\ chromecastPort (afterReset st) = chromecastPort st
  /\ chromecastClient (afterReset st) = chromecastClient st
  /\ nextClient (afterReset st) = nextClient st.
Proof.
  pose proof (clientDisconnect_fields false st) as F. cbv zeta in F.
  pose proof (clientDisconnect_nextClient false st) as N.
  rewrite clientDisconnect_unfold in F, N.
  destruct F as (F1 & _ & F3 & _ & _ & _ & _ & F8 & F9 & F10 & _).
  repeat split; assumption.
Qed.

Lemma detectChromecast_frame (st : State) :
  let st' := detectChromecast st in
  chromecastIp st' = chromecastIp st
  /\ chromecastPort st' = chromecastPort st
  /\ chromecastClient st' = chromecastClient st
  /\ nextClient st' = nextClient st
  /\ isCastingStatus st' = isCastingStatus st
  /\ castingMedia st' = castingMedia st
  /\ reconnectTimer st' = reconnectTimer st
  /\ trace st'
     = BrowserStart (nextBrowser st)
         :: Log (LogSearching (chromecastDeviceName st))
         :: BrowserCreate (nextBrowser st) :: trace st
  /\ timers st'
     = <[nextTimer st
         := MkTimer (clock st + 1800000) (RestartBrowser (nextBrowser st))]>
         (timers st).
Proof. rewrite detectChromecast_result. repeat split. Qed.

Lemma fire_restart_unfold
    (id : TimerId) (t : Timer) (b : BrowserId) (st : State) :
  timers st !! id = Some t -> action t = RestartBrowser b ->
  fire id st
  = detectChromecast
      (afterReset
         (emit (BrowserStop b) (set_timers (delete id (timers st)) st))).
Proof.
  intros Hl Ha. unfold fire. rewrite Hl, Ha. cbv zeta.
  now rewrite clientDisconnect_unfold.
Qed.

(** A reset followed by the start of a browser. *)
Lemma reset_then_rediscover (st : State) :
  retries_tracked st ->
  let st' := detectChromecast (afterReset st) in
  (forall e, In e (trace st) -> In e (trace st'))
  /\ head (trace st') = Some (BrowserStart (nextBrowser st))
  /\ (forall c, chromecastClient st = Some c -> In (ClientClose c) (trace st'))
  /\ chromecastClient st' = chromecastClient st
  /\ nextClient st' = nextClient st
  /\ isCastingStatus st' = false
  /\ castingMedia st' = None
  /\ reconnectTimer st' = None
  /\ no_retry st'
  /\ chromecastIp st' = chromecastIp st
  /\ chromecastPort st' = chromecastPort st
  /\ exists id',
       timers st' !! id'
       = Some (MkTimer (clock st + 1800000) (RestartBrowser (nextBrowser st))).
Proof.
  intros Htr. cbv zeta.
  pose proof (detectChromecast_no_retry _ (afterReset_no_retry st Htr))
    as Hno.
  pose proof (afterReset_emits st) as He.
  pose proof (afterReset_closes_client st) as Hcl.
  pose proof (afterReset_reconnectTimer st) as Hrt.
  destruct (afterReset_session st) as (S1 & S2 & S3 & S4 & S5 & S6).
  destruct (afterReset_fields st) as (_ & Sk & Sb).
  revert Hno He Hcl Hrt S1 S2 S3 S4 S5 S6 Sk Sb.
  generalize (afterReset st). intros x Hno He Hcl Hrt S1 S2 S3 S4 S5 S6 Sk Sb.
  pose proof (detectChromecast_frame x) as D. cbv zeta in D.
  destruct D as (D1 & D2 & D3 & D4 & D5 & D6 & D7 & D8 & D9).
  rewrite D1, D2, D3, D4, D5, D6, D7, D8, D9, Sb, Sk.
  split; [|split; [|split]]; [| | |repeat split]; try assumption.
  - intros e Hin. do 3 right. exact (emits_only_In _ _ _ _ He Hin).
  - reflexivity.
  - intros c Hc. do 3 right. apply Hcl. exact Hc.
  - exists (nextTimer x). apply lookup_insert_eq.
Qed.

(** X6.  When the 30-minute restart timer of browser [b] fires, [b] is
    stopped, the session is reset and the client closed as by a disconnect
    without reconnect intent, and a new browser is started with its own
    30-minute timer.  The handler creates no client and leaves no retry
    pending when it returns, whatever the state of the connection was: the
    stored address and port are kept, and no timer is left that would
    connect to them. *)
Theorem restart_drops_connection_without_retry
    (id : TimerId) (t : Timer) (b : BrowserId) (st : State) :
  timers st !! id = Some t ->
  action t = RestartBrowser b ->
  retries_tracked st ->
  let st' := fire id st in
  In (BrowserStop b) (trace st')
  /\ head (trace st') = Some (BrowserStart (nextBrowser st))
  /\ (forall c, chromecastClient st = Some c -> In (ClientClose c) (trace st'))
  /\ chromecastClient st' = chromecastClient st
  /\ nextClient st' = nextClient st
  /\ isCastingStatus st' = false
  /\ castingMedia st' = None
  /\ reconnectTimer st' = None
  /\ no_retry st'
  /\ chromecastIp st' = chromecastIp st
  /\ chromecastPort st' = chromecastPort st
  /\ exists id',
       timers st' !! id'
       = Some (MkTimer (clock st + 1800000) (RestartBrowser (nextBrowser st))).
Proof.
  intros Hl Ha Htr. cbv zeta. rewrite (fire_restart_unfold id t b st Hl Ha).
  pose proof (reset_then_rediscover
                (emit (BrowserStop b) (set_timers (delete id (timers st)) st))
                (retries_tracked_delete id st Htr)) as H.
  cbv zeta in H. destruct H as (Hin & H).
  split; [|exact H].
  apply Hin. left. reflexivity.
Qed.

Lemma restart_drops_connection_without_retry_witness :
  reconnectTimer (fire 0%nat Sample.connected) = None
  /\ nextClient (fire 0%nat Sample.connected) = nextClient Sample.connected
  /\ In (ClientClose 0%nat) (trace (fire 0%nat Sample.connected)).
Proof.
  assert (Hl : timers Sample.connected !! 0%nat
               = Some (MkTimer 1800000 (RestartBrowser 0%nat)))
    by (vm_compute; reflexivity).
  assert (Htr : retries_tracked Sample.connected).
  { unfold retries_tracked. apply (bool_decide_unpack _).
    vm_compute. exact I. }
  pose proof (restart_drops_connection_without_retry 0%nat _ 0%nat
                Sample.connected Hl eq_refl Htr) as H.
  cbv zeta in H.
  destruct H as (_ & _ & Hc & _ & Hn & _ & _ & Hr & _).
  split; [exact Hr|]. split; [exact Hn|]. apply Hc. reflexivity.
Defined.

Lemma setIsCasting_keeps_other_timers
    (b : bool) (st : State) (id : TimerId) (t : Timer) :
  timers_sound st ->
  timers st !! id = Some t ->
  action t <> UpdateMotionSensor ->
  timers (setIsCasting b st) !! id = Some t.
Proof.
  intros (H1 & _ & H3) Hl Ha.
  pose proof (H1 id t Hl) as Hlt. cbv beta in Hlt.
  assert (Hdel : forall h,
             switchOffDelayTimer st = Some h ->
             delete h (timers st) !! id = Some t).
  { intros h Hh. rewrite lookup_delete_ne; [exact Hl|]. intros ->.
    apply Ha. exact (proj2 (H3 _ Hh) t Hl). }
  unfold setIsCasting.
  destruct (Bool.eqb b (isCastingStatus st)); [exact Hl|]. cbv zeta.
  destruct b; ssimpl.
  - destruct (switchOffDelayTimer st) as [h|] eqn:Hh; ssimpl;
      [apply Hdel; reflexivity | exact Hl].
  - destruct (JS.truthy_Z (switchOffDelay st)); ssimpl.
    + rewrite lookup_insert_ne by lia. exact Hl.
    + destruct (switchOffDelayTimer st) as [h|] eqn:Hh; ssimpl;
        [apply Hdel; reflexivity | exact Hl].
Qed.

Lemma afterReset_keeps_restart_timers
    (st : State) (id : TimerId) (t : Timer) (b : BrowserId) :
  timers_sound st ->
  timers st !! id = Some t ->
  action t = RestartBrowser b ->
  timers (afterReset st) !! id = Some t.
Proof.
  intros Hs Hl Ha. rewrite afterReset_result. cbv zeta. ssimpl.
  assert (Hl' : timers (setIsCasting false (emit (Log LogDisconnected) st))
                  !! id = Some t).
  { apply setIsCasting_keeps_other_timers; [exact Hs|exact Hl|].
    rewrite Ha. discriminate. }
  destruct (reconnectTimer st) as [h|] eqn:Hh; [|exact Hl'].
  rewrite lookup_delete_ne; [exact Hl'|]. intros ->.
  destruct Hs as (_ & H2 & _).
  pose proof (proj2 (H2 _ Hh) t Hl) as Hk. rewrite Ha in Hk. discriminate.
Qed.

(** X7.  A disconnect that gives up retrying (counter above 150) starts a
    new browser without stopping any: every browser restart timer that was
    pending is still pending, no [stop] is issued, and one more browser is
    scanning, with one more restart timer. *)
Theorem backoff_leaves_browsers_running (st : State) :
  150 < reconnectCounter st ->
  timers_sound st ->
  let st' := clientDisconnect true st in
  (forall id t b,
      timers st !! id = Some t -> action t = RestartBrowser b ->
      timers st' !! id = Some t)
  /\ (forall b, In (BrowserStop b) (trace st') -> In (BrowserStop b) (trace st))
  /\ head (trace st') = Some (BrowserStart (nextBrowser st))
  /\ timers st' !! nextTimer (afterReset st)
     = Some (MkTimer (clock st + 1800000) (RestartBrowser (nextBrowser st)))
  /\ timers st !! nextTimer (afterReset st) = None.
Proof.
  intros Hc Hs. cbv zeta. rewrite clientDisconnect_unfold.
  pose proof (afterReset_reconnectTimer st) as Hn.
  destruct (afterReset_fields st) as (Fc & Fk & Fb).
  pose proof (reconnectOrRediscover_timers _ Hn) as Gm.
  pose proof (reconnectOrRediscover_trace (afterReset st)) as Gh.
  assert (Hlt : (150 <? reconnectCounter (afterReset st)) = true)
    by (rewrite Fc; apply Z.ltb_lt; exact Hc).
  rewrite Hlt in Gm, Gh.
  pose proof (afterReset_nextTimer st) as Hnt.
  split; [|split; [|split; [|split]]].
  - intros id t b Hl Ha. rewrite Gm.
    destruct Hs as (H1 & H2 & H3).
    pose proof (H1 id t Hl) as Hi. cbv beta in Hi.
    rewrite lookup_insert_ne by lia.
    apply (afterReset_keeps_restart_timers st id t b); try assumption.
    exact (conj H1 (conj H2 H3)).
  - intros b Hin.
    apply (emits_only_excludes disconnect_effect st
             (reconnectOrRediscover (afterReset st)) (BrowserStop b));
      [|reflexivity|exact Hin].
    eapply emits_only_trans; [|apply reconnectOrRediscover_emits].
    eapply emits_only_weaken; [exact reset_is_disconnect_effect|].
    apply afterReset_emits.
  - rewrite Gh, Fb. reflexivity.
  - rewrite Gm, Fk, Fb. apply lookup_insert_eq.
  - destruct Hs as (H1 & _).
    destruct (timers st !! nextTimer (afterReset st)) as [t|] eqn:Hl;
      [|reflexivity].
    pose proof (H1 _ t Hl) as Hi. cbv beta in Hi. lia.
Qed.

Lemma backoff_leaves_browsers_running_witness :
  timers (clientDisconnect true Sample.rediscovering) !! 0%nat
  = Some (MkTimer 1800000 (RestartBrowser 0%nat)).
Proof.
  assert (Hc : 150 < reconnectCounter Sample.rediscovering)
    by (vm_compute; reflexivity).
  assert (Hs : timers_sound Sample.rediscovering).
  { repeat split.
    - apply (bool_decide_unpack _). vm_compute. exact I.
    - vm_compute in H. discriminate H.
    - vm_compute in H. discriminate H.
    - vm_compute in H. discriminate H.
    - vm_compute in H. discriminate H. }
  apply (proj1 (backoff_leaves_browsers_running Sample.rediscovering Hc Hs)
           0%nat _ 0%nat).
  - vm_compute. reflexivity.
  - reflexivity.
Defined.

(** ** The range of the reconnect counter *)

Lemma calm_refl (st : State) : calm st st.
Proof. split; auto. Qed.

Lemma calm_trans (st1 st2 st3 : State) :
  calm st1 st2 -> calm st2 st3 -> calm st1 st3.
Proof.
  intros [C1 T1] [C2 T2]. split; [congruence|].
  intros id t Hl Ha. apply T1; [|exact Ha]. apply T2; assumption.
Qed.

Lemma calm_frame (st st' : State) :
  reconnectCounter st' = reconnectCounter st ->
  timers st' = timers st ->
  calm st st'.
Proof. intros Hc Ht. split; [exact Hc|]. rewrite Ht. auto. Qed.

Lemma counter_bounded_calm (st st' : State) :
  calm st st' -> counter_bounded st -> counter_bounded st'.
Proof.
  intros [Hc Ht] [Hr Hp]. split; rewrite Hc; [exact Hr|].
  intros id t Hl Ha. exact (Hp id t (Ht id t Hl Ha) Ha).
Qed.

Lemma setIsCasting_calm (b : bool) (st : State) :
  calm st (setIsCasting b st).
Proof.
  destruct (setIsCasting_frame b st)
    as (_ & _ & _ & _ & _ & _ & _ & Hc & _).
  split; [exact Hc|]. intros id t Hl Ha.
  apply setIsCasting_timers in Hl. destruct Hl as [Hl|Hl]; [exact Hl|].
  congruence.
Qed.

Lemma setDefaultProperties_calm (r s : bool) (st : State) :
  calm st (setDefaultProperties r s st).
Proof.
  rewrite setDefaultProperties_result. split; [reflexivity|].
  intros id t Hl Ha. ssimpl in Hl.
  destruct s, (reconnectTimer st); try exact Hl.
  apply lookup_delete_Some in Hl. apply Hl.
Qed.

Lemma detectChromecast_calm (st : State) : calm st (detectChromecast st).
Proof.
  rewrite detectChromecast_result. split; [reflexivity|].
  intros id t Hl Ha. ssimpl in Hl.
  apply lookup_insert_Some in Hl. destruct Hl as [[_ <-]|[_ Hl]];
    [discriminate Ha | exact Hl].
Qed.

Lemma clientConnect_calm (st : State) : calm st (clientConnect st).
Proof. rewrite clientConnect_result. apply calm_frame; reflexivity. Qed.

Lemma afterReset_calm (st : State) : calm st (afterReset st).
Proof.
  unfold afterReset.
  eapply calm_trans; [|apply setDefaultProperties_calm].
  eapply calm_trans; [|apply setIsCasting_calm].
  apply calm_frame; reflexivity.
Qed.

(** A retry is scheduled only with the counter at most 150. *)
Lemma reconnectOrRediscover_bounded (st : State) :
  idle st -> counter_bounded st -> counter_bounded (reconnectOrRediscover st).
Proof.
  intros [Hno Hn] [Hr _].
  destruct (reconnectOrRediscover_fields st Hn) as (Hc & _).
  pose proof (reconnectOrRediscover_timers st Hn) as Hm.
  split; rewrite Hc; [exact Hr|].
  intros id t Hl Ha. rewrite Hm in Hl.
  destruct (150 <? reconnectCounter st) eqn:Hlt;
    apply lookup_insert_Some in Hl; destruct Hl as [[_ <-]|[_ Hl]];
    try discriminate Ha; try (exfalso; exact (Hno id t Hl Ha)).
  apply Z.ltb_ge in Hlt. exact Hlt.
Qed.

Lemma clientDisconnect_bounded (r : bool) (st : State) :
  well_formed st -> counter_bounded st ->
  counter_bounded (clientDisconnect r st).
Proof.
  intros Hw Hb. rewrite clientDisconnect_unfold.
  pose proof (counter_bounded_calm _ _ (afterReset_calm st) Hb) as Hb'.
  destruct r; [|exact Hb'].
  apply reconnectOrRediscover_bounded; [apply afterReset_idle, Hw|exact Hb'].
Qed.

Lemma serviceUp_calm {engine : JS.Engine} (device : Device) (st : State) :
  calm st (serviceUp device st).
Proof.
  unfold serviceUp. destruct (String.eqb _ _); [|apply calm_refl]. cbv zeta.
  eapply calm_trans; [|apply clientConnect_calm].
  eapply calm_trans; [apply (setDefaultProperties_calm true true)|].
  generalize (setDefaultProperties true true st). intros x.
  apply calm_frame; reflexivity.
Qed.

Lemma attach_bounded (app : Application) (jt : bool) (st : State) :
  well_formed st -> counter_bounded st -> counter_bounded (attach app jt st).
Proof.
  intros Hw Hb. unfold attach. cbv zeta. ssimpl.
  assert (Hw' : well_formed
                  (set_castingApplication (Some (overwritten app)) st))
    by exact Hw.
  assert (Hb' : counter_bounded
                  (set_castingApplication (Some (overwritten app)) st))
    by exact Hb.
  destruct (chromecastClient st) as [c|].
  - destruct jt; [apply clientDisconnect_bounded|]; assumption.
  - apply clientDisconnect_bounded; assumption.
Qed.

Lemma processClientStatus_bounded
    (status : ClientStatus) (jt : bool) (st st' : State) :
  processClientStatus (Some status) jt st = Normal st' ->
  well_formed st -> counter_bounded st -> counter_bounded st'.
Proof.
  destruct status as [apps vol]. intros Hp Hw Hb.
  assert (Hv : forall x,
             counter_bounded x -> counter_bounded (storeVolume vol x))
    by (intros x; destruct vol as [[[lvl|]]|]; trivial).
  assert (Hm : counter_bounded (set_castingMedia None st)) by exact Hb.
  destruct apps as [[|app rest]|].
  - rewrite processClientStatus_no_candidate in Hp by exact I.
    apply Normal_inj in Hp; subst st'. apply Hv, Hm.
  - rewrite processClientStatus_candidate in Hp.
    apply Normal_inj in Hp; subst st'. apply Hv.
    destruct (castingApplication st) as [tracked|];
      [destruct (String.eqb _ _); [exact Hb|]|];
      apply attach_bounded; assumption.
  - rewrite processClientStatus_no_candidate in Hp by exact I.
    apply Normal_inj in Hp; subst st'. apply Hv.
    exact (counter_bounded_calm _ _ (setIsCasting_calm false _) Hm).
Qed.

Lemma fire_bounded (id : TimerId) (st : State) :
  well_formed st -> counter_bounded st -> counter_bounded (fire id st).
Proof.
  intros Hw Hb. unfold fire.
  destruct (timers st !! id) as [t|] eqn:Hl; [|exact Hb]. cbv zeta.
  assert (Hw' : well_formed (set_timers (delete id (timers st)) st)).
  { destruct Hw as [Htr Hi]. split; [|exact Hi].
    apply retries_tracked_delete, Htr. }
  assert (Hb' : counter_bounded (set_timers (delete id (timers st)) st)).
  { apply (counter_bounded_calm st); [|exact Hb]. split; [reflexivity|].
    intros i x Hx _. ssimpl in Hx. apply lookup_delete_Some in Hx. apply Hx. }
  destruct (action t) as [b| |] eqn:Ha.
  - apply (counter_bounded_calm _ _ (detectChromecast_calm _)).
    apply clientDisconnect_bounded; assumption.
  - apply (counter_bounded_calm _ _ (clientConnect_calm _)).
    destruct Hb as [Hr Hp]. pose proof (Hp id t Hl Ha) as Hle.
    cbv beta in Hle. split; ssimpl; [lia|].
    intros i x Hx Hax. exfalso.
    apply lookup_delete_Some in Hx. destruct Hx as [Hne Hx].
    destruct Hw as [Htr _].
    pose proof (Htr i x Hx Hax) as E1. pose proof (Htr id t Hl Ha) as E2.
    cbv beta in E1, E2. congruence.
  - exact Hb'.
Qed.

Lemma step_bounded {engine : JS.Engine} (ev : Event) (st st' : State) :
  step ev st = Normal st' ->
  well_formed st -> counter_bounded st -> counter_bounded st'.
Proof.
  intros Hst Hw Hb. destruct ev; unfold step in Hst.
  - apply Normal_inj in Hst; subst st'.
    exact (counter_bounded_calm _ _ (serviceUp_calm _ _) Hb).
  - apply Normal_inj in Hst; subst st'. unfold connectCallback.
    destruct (chromecastClient st), layers; try exact Hb. cbv zeta.
    destruct Hb as [_ Hp]. split; ssimpl; [lia|].
    intros i x Hx Hax. lia.
  - exact (processClientStatus_bounded _ _ _ _ Hst Hw Hb).
  - unfold getStatusCallback in Hst. destruct status; [|discriminate].
    exact (processClientStatus_bounded _ _ _ _ Hst Hw Hb).
  - apply Normal_inj in Hst; subst st'. unfold clientError.
    apply clientDisconnect_bounded; assumption.
  - apply Normal_inj in Hst; subst st'.
    apply clientDisconnect_bounded; assumption.
  - destruct media as [m|]; [|discriminate].
    unfold joinCallback in Hst. apply Normal_inj in Hst; subst st'. exact Hb.
  - apply Normal_inj in Hst; subst st'. unfold processMediaStatus.
    destruct status as [[[ps|]]|]; cbn [playerState]; try exact Hb.
    destruct (JS.truthy_string ps); [|exact Hb].
    destruct (_ || _);
      exact (counter_bounded_calm _ _ (setIsCasting_calm _ _) Hb).
  - apply Normal_inj in Hst; subst st'. unfold setCasting. cbv zeta.
    pose proof (counter_bounded_calm _ _ (setIsCasting_calm on st) Hb) as H'.
    destruct (castingMedia (setIsCasting on st)); [|exact H'].
    destruct (on && negb (isCastingStatus st));
      [|destruct (negb on && isCastingStatus st)]; exact H'.
  - apply Normal_inj in Hst; subst st'. unfold setVolume.
    destruct (chromecastClient st); [destruct send_throws|]; exact Hb.
  - apply Normal_inj in Hst; subst st'. exact Hb.
  - apply Normal_inj in Hst; subst st'. apply fire_bounded; assumption.
  - apply Normal_inj in Hst; subst st'. exact Hb.
Qed.

Lemma constructor_bounded (deviceName : string) (delay : option Z) :
  counter_bounded (constructor deviceName delay).
Proof.
  unfold constructor.
  apply (counter_bounded_calm _ _ (detectChromecast_calm _)).
  rewrite setDefaultProperties_result. unfold blank.
  split; ssimpl; [lia|].
  intros i t Hl. now rewrite lookup_empty in Hl.
Qed.

(** X8.  In every state reached from the constructor the reconnect counter
    is between 0 and 151, and while a retry is pending it is at most 150:
    the backoff lets at most 151 retries follow one another. *)
Theorem reachable_counter_range {engine : JS.Engine}
    (deviceName : string) (delay : option Z) (evs : list Event) (st : State) :
  run (constructor deviceName delay) evs st ->
  0 <= reconnectCounter st <= 151
  /\ forall id t,
       timers st !! id = Some t -> action t = Reconnect ->
       reconnectCounter st <= 150.
Proof.
  intros Hrun.
  pose proof (constructor_well_formed deviceName delay) as Hw.
  pose proof (constructor_bounded deviceName delay) as Hb.
  induction Hrun as [st|st ev st1 evs st2 Hen Hst Hrun IH].
  - destruct Hb as [Hr Hp]. split; [exact Hr|exact Hp].
  - apply IH.
    + exact (step_well_formed ev st st1 Hst Hw).
    + exact (step_bounded ev st st1 Hst Hw Hb).
Qed.

Lemma reachable_counter_range_witness :
  exists st,
    run (constructor "living room" None)
      [ServiceUp Sample.device; ConnectCallback true; ConnectionDisconnect]
      st
    /\ 0 <= reconnectCounter st <= 151.
Proof.
  assert (R : exists st,
             run (constructor "living room" None)
               [ServiceUp Sample.device; ConnectCallback true;
                ConnectionDisconnect] st).
  { eexists.
    eapply run_cons; [reflexivity | reflexivity |].
    eapply run_cons; [reflexivity | reflexivity |].
    eapply run_cons; [reflexivity | reflexivity |]. apply run_nil. }
  destruct R as [st R]. exists st. split; [exact R|].
  exact (proj1 (reachable_counter_range _ _ _ _ R)).
Defined.

(** ** One client at a time *)

Lemma same_client_refl (st : State) : same_client st st.
Proof. split; auto. Qed.

Lemma same_client_trans (st1 st2 st3 : State) :
  same_client st1 st2 -> same_client st2 st3 -> same_client st1 st3.
Proof. intros [C1 T1] [C2 T2]. split; [congruence|auto]. Qed.

Lemma same_client_emit (e : Effect) (st : State) : same_client st (emit e st).
Proof. split; [reflexivity|]. intros x Hx. right. exact Hx. Qed.

Lemma quiet_grows (st st' : State) (e : Effect) :
  quiet st st' -> In e (trace st) -> In e (trace st').
Proof.
  intros (pre & H & _) Hin. rewrite H. apply in_or_app. now right.
Qed.

Lemma setIsCasting_same_client (b : bool) (st : State) :
  same_client st (setIsCasting b st).
Proof.
  split; [apply setIsCasting_frame|].
  intros e. apply quiet_grows, setIsCasting_quiet.
Qed.

Lemma clientDisconnect_same_client (r : bool) (st : State) :
  same_client st (clientDisconnect r st).
Proof.
  split; [apply clientDisconnect_fields|].
  intros e. apply quiet_grows, clientDisconnect_quiet.
Qed.

Lemma detectChromecast_same_client (st : State) :
  same_client st (detectChromecast st).
Proof.
  pose proof (detectChromecast_frame st) as D. cbv zeta in D.
  destruct D as (_ & _ & D3 & _ & _ & _ & _ & D8 & _).
  split; [exact D3|]. intros e Hin. rewrite D8. do 3 right. exact Hin.
Qed.

Lemma attach_same_client (app : Application) (jt : bool) (st : State) :
  same_client st (attach app jt st).
Proof.
  unfold attach. cbv zeta. ssimpl.
  assert (H0 : same_client st
                 (set_castingApplication (Some (overwritten app)) st))
    by (split; auto).
  destruct (chromecastClient st) as [c|].
  - assert (H1 : same_client st
                   (emit (ClientJoin c (overwritten app))
                      (set_castingApplication (Some (overwritten app)) st))).
    { eapply same_client_trans; [exact H0|apply same_client_emit]. }
    destruct jt; [|exact H1].
    eapply same_client_trans; [exact H1|apply clientDisconnect_same_client].
  - eapply same_client_trans; [exact H0|apply clientDisconnect_same_client].
Qed.

Lemma storeVolume_same_client (vol : option VolumeObj) (st : State) :
  same_client st (storeVolume vol st).
Proof. destruct vol as [[[lvl|]]|]; split; auto. Qed.

Lemma processClientStatus_same_client
    (status : ClientStatus) (jt : bool) (st st' : State) :
  processClientStatus (Some status) jt st = Normal st' -> same_client st st'.
Proof.
  destruct status as [apps vol]. intros Hp.
  assert (Hm : same_client st (set_castingMedia None st)) by (split; auto).
  destruct apps as [[|app rest]|].
  - rewrite processClientStatus_no_candidate in Hp by exact I.
    apply Normal_inj in Hp; subst st'.
    eapply same_client_trans; [exact Hm|apply storeVolume_same_client].
  - rewrite processClientStatus_candidate in Hp.
    apply Normal_inj in Hp; subst st'.
    eapply same_client_trans; [|apply storeVolume_same_client].
    destruct (castingApplication st) as [tracked|];
      [destruct (String.eqb _ _); [apply same_client_refl|]|];
      apply attach_same_client.
  - rewrite processClientStatus_no_candidate in Hp by exact I.
    apply Normal_inj in Hp; subst st'.
    eapply same_client_trans; [|apply storeVolume_same_client].
    eapply same_client_trans; [exact Hm|apply setIsCasting_same_client].
Qed.

Lemma processMediaStatus_same_client
    (status : option MediaStatus) (st : State) :
  same_client st (processMediaStatus status st).
Proof.
  unfold processMediaStatus.
  destruct status as [[[ps|]]|]; cbn [playerState];
    try apply same_client_refl.
  destruct (JS.truthy_string ps); [|apply same_client_refl].
  destruct (_ || _); apply setIsCasting_same_client.
Qed.

Lemma setCasting_same_client (on : bool) (cb : CallbackId) (st : State) :
  same_client st (setCasting on cb st).
Proof.
  unfold setCasting. cbv zeta.
  pose proof (setIsCasting_same_client on st) as H.
  revert H. generalize (setIsCasting on st). intros x H.
  eapply same_client_trans; [exact H|].
  destruct (castingMedia x); [|apply same_client_emit].
  destruct (on && negb (isCastingStatus st));
    [|destruct (negb on && isCastingStatus st)];
    repeat (eapply same_client_trans; [|apply same_client_emit]);
    apply same_client_refl.
Qed.

Lemma setVolume_same_client
    (vol : number) (cb : CallbackId) (throws : bool) (st : State) :
  same_client st (setVolume vol cb throws st).
Proof.
  unfold setVolume. destruct (chromecastClient st); [|apply same_client_refl].
  cbv zeta. destruct throws;
    repeat (eapply same_client_trans; [|apply same_client_emit]);
    apply same_client_refl.
Qed.

(** How one event changes the client field: it leaves it, or stores the
    client that [clientConnect] has just created. *)
Lemma step_client {engine : JS.Engine} (ev : Event) (st st' : State) :
  step ev st = Normal st' ->
  same_client st st' \/ chromecastClient st' = Some (nextClient st).
Proof.
  intros Hst. destruct ev; unfold step in Hst.
  - apply Normal_inj in Hst; subst st'. unfold serviceUp.
    destruct (String.eqb _ _); [|left; apply same_client_refl].
    right. cbv zeta. rewrite clientConnect_result, setDefaultProperties_result.
    reflexivity.
  - apply Normal_inj in Hst; subst st'. left. unfold connectCallback.
    destruct (chromecastClient st) eqn:Hc, layers;
      try apply same_client_refl.
    cbv zeta. split; [ssimpl; now rewrite Hc|].
    intros e Hin. do 2 right. exact Hin.
  - left. exact (processClientStatus_same_client _ _ _ _ Hst).
  - left. unfold getStatusCallback in Hst. destruct status; [|discriminate].
    exact (processClientStatus_same_client _ _ _ _ Hst).
  - apply Normal_inj in Hst; subst st'. left. unfold clientError.
    eapply same_client_trans;
      [apply same_client_emit|apply clientDisconnect_same_client].
  - apply Normal_inj in Hst; subst st'. left.
    apply clientDisconnect_same_client.
  - left. destruct media as [m|]; [|discriminate].
    unfold joinCallback in Hst. apply Normal_inj in Hst; subst st'.
    cbv zeta. split; [reflexivity|]. intros e Hin. do 2 right. exact Hin.
  - apply Normal_inj in Hst; subst st'. left.
    apply processMediaStatus_same_client.
  - apply Normal_inj in Hst; subst st'. left. apply setCasting_same_client.
  - apply Normal_inj in Hst; subst st'. left. apply setVolume_same_client.
  - apply Normal_inj in Hst; subst st'. left. apply same_client_emit.
  - apply Normal_inj in Hst; subst st'. unfold fire.
    destruct (timers st !! id) as [t|]; [|left; apply same_client_refl].
    cbv zeta.
    assert (H0 : same_client st (set_timers (delete id (timers st)) st))
      by (split; auto).
    destruct (action t) as [b| |].
    + left. eapply same_client_trans; [|apply detectChromecast_same_client].
      eapply same_client_trans; [|apply clientDisconnect_same_client].
      eapply same_client_trans; [exact H0|apply same_client_emit].
    + right. rewrite clientConnect_result. reflexivity.
    + left. unfold updateMotionSensor.
      eapply same_client_trans; [|apply same_client_emit].
      eapply same_client_trans; [exact H0|apply same_client_emit].
  - apply Normal_inj in Hst; subst st'. left. split; auto.
Qed.

(** X9.  Once a client exists, the client field is never empty again: no
    event handler sets it back to null, a disconnect included.  So from the
    first matching announcement on, [setVolume] always finds a client and
    sends its command. *)
Theorem client_field_stays_set {engine : JS.Engine}
    (st : State) (evs : list Event) (st' : State) (c : ClientId) :
  run st evs st' ->
  chromecastClient st = Some c ->
  exists c',
    chromecastClient st' = Some c'
    /\ forall vol cb,
         trace (setVolume vol cb false st')
         = ClientSetVolume c' (JS.div vol (JS.of_Z 100)) cb :: trace st'.
Proof.
  intros Hrun. revert c.
  induction Hrun as [st|st ev st1 evs st2 Hen Hst Hrun IH]; intros c Hc.
  - exists c. split; [exact Hc|]. intros vol cb.
    unfold setVolume. rewrite Hc. reflexivity.
  - destruct (step_client ev st st1 Hst) as [[H _]|H].
    + apply (IH c). congruence.
    + apply (IH (nextClient st)). exact H.
Qed.

Lemma client_field_stays_set_witness :
  exists st' c',
    run Sample.connected [ConnectionDisconnect; Elapse 2000; Fire 1%nat] st'
    /\ chromecastClient st' = Some c'.
Proof.
  assert (R : exists st',
             run Sample.connected
               [ConnectionDisconnect; Elapse 2000; Fire 1%nat] st').
  { eexists.
    eapply run_cons; [reflexivity | reflexivity |].
    eapply run_cons; [vm_compute; reflexivity | reflexivity |].
    eapply run_cons; [vm_compute; reflexivity | reflexivity |].
    apply run_nil. }
  destruct R as [st' R].
  destruct (client_field_stays_set Sample.connected _ st' 0%nat R eq_refl)
    as (c' & Hc & _).
  exists st', c'. split; [exact R | exact Hc].
Defined.

Lemma settles_refl (st : State) : settles st st.
Proof. split; [apply same_client_refl|]. left. auto. Qed.

Lemma settles_trans (st1 st2 st3 : State) :
  settles st1 st2 -> settles st2 st3 -> settles st1 st3.
Proof.
  intros [S1 H1] [S2 H2]. split; [exact (same_client_trans _ _ _ S1 S2)|].
  destruct H1 as [H1|H1].
  - destruct H2 as [H2|H2].
    + left. intros id t Hl Ha. apply H1; [|exact Ha]. apply H2; assumption.
    + right. intros c Hc. apply H2. destruct S1 as [E _]. congruence.
  - right. intros c Hc. apply S2, H1, Hc.
Qed.

Lemma settles_calm (st st' : State) :
  calm st st' -> same_client st st' -> settles st st'.
Proof. intros [_ H] S. split; [exact S|]. left. exact H. Qed.

Lemma settles_frame (st st' : State) :
  timers st' = timers st -> same_client st st' -> settles st st'.
Proof. intros Ht S. split; [exact S|]. left. rewrite Ht. auto. Qed.

Lemma settles_closed (st st' : State) :
  settles st st' -> closed_while_retrying st -> closed_while_retrying st'.
Proof.
  intros [[Hc Hg] H] Hinv id t c Hl Ha Hcl. rewrite Hc in Hcl.
  destruct H as [H|H].
  - apply Hg. exact (Hinv id t c (H id t Hl Ha) Ha Hcl).
  - exact (H c Hcl).
Qed.

Lemma setIsCasting_settles (b : bool) (st : State) :
  settles st (setIsCasting b st).
Proof.
  apply settles_calm; [apply setIsCasting_calm|apply setIsCasting_same_client].
Qed.

Lemma clientDisconnect_settles (r : bool) (st : State) :
  settles st (clientDisconnect r st).
Proof.
  split; [apply clientDisconnect_same_client|]. right.
  intros c. apply clientDisconnect_closes_client.
Qed.

Lemma detectChromecast_settles (st : State) :
  settles st (detectChromecast st).
Proof.
  apply settles_calm;
    [apply detectChromecast_calm|apply detectChromecast_same_client].
Qed.

Lemma emit_settles (e : Effect) (st : State) : settles st (emit e st).
Proof. apply settles_frame; [reflexivity|apply same_client_emit]. Qed.

Lemma attach_settles (app : Application) (jt : bool) (st : State) :
  settles st (attach app jt st).
Proof.
  unfold attach. cbv zeta. ssimpl.
  assert (H0 : settles st
                 (set_castingApplication (Some (overwritten app)) st)).
  { apply settles_frame; [reflexivity|]. split; auto. }
  destruct (chromecastClient st) as [c|].
  - assert (H1 : settles st
                   (emit (ClientJoin c (overwritten app))
                      (set_castingApplication (Some (overwritten app)) st))).
    { eapply settles_trans; [exact H0|apply emit_settles]. }
    destruct jt; [|exact H1].
    eapply settles_trans; [exact H1|apply clientDisconnect_settles].
  - eapply settles_trans; [exact H0|apply clientDisconnect_settles].
Qed.

Lemma storeVolume_settles (vol : option VolumeObj) (st : State) :
  settles st (storeVolume vol st).
Proof.
  apply settles_frame; [|apply storeVolume_same_client].
  destruct vol as [[[lvl|]]|]; reflexivity.
Qed.

Lemma processClientStatus_settles
    (status : ClientStatus) (jt : bool) (st st' : State) :
  processClientStatus (Some status) jt st = Normal st' -> settles st st'.
Proof.
  destruct status as [apps vol]. intros Hp.
  assert (Hm : settles st (set_castingMedia None st)).
  { apply settles_frame; [reflexivity|]. split; auto. }
  destruct apps as [[|app rest]|].
  - rewrite processClientStatus_no_candidate in Hp by exact I.
    apply Normal_inj in Hp; subst st'.
    eapply settles_trans; [exact Hm|apply storeVolume_settles].
  - rewrite processClientStatus_candidate in Hp.
    apply Normal_inj in Hp; subst st'.
    eapply settles_trans; [|apply storeVolume_settles].
    destruct (castingApplication st) as [tracked|];
      [destruct (String.eqb _ _); [apply settles_refl|]|];
      apply attach_settles.
  - rewrite processClientStatus_no_candidate in Hp by exact I.
    apply Normal_inj in Hp; subst st'.
    eapply settles_trans; [|apply storeVolume_settles].
    eapply settles_trans; [exact Hm|apply setIsCasting_settles].
Qed.

Lemma processMediaStatus_settles (status : option MediaStatus) (st : State) :
  settles st (processMediaStatus status st).
Proof.
  unfold processMediaStatus.
  destruct status as [[[ps|]]|]; cbn [playerState]; try apply settles_refl.
  destruct (JS.truthy_string ps); [|apply settles_refl].
  destruct (_ || _); apply setIsCasting_settles.
Qed.

Lemma setCasting_settles (on : bool) (cb : CallbackId) (st : State) :
  settles st (setCasting on cb st).
Proof.
  unfold setCasting. cbv zeta.
  pose proof (setIsCasting_settles on st) as H.
  revert H. generalize (setIsCasting on st). intros x H.
  eapply settles_trans; [exact H|].
  destruct (castingMedia x); [|apply emit_settles].
  destruct (on && negb (isCastingStatus st));
    [|destruct (negb on && isCastingStatus st)];
    repeat (eapply settles_trans; [|apply emit_settles]);
    apply settles_refl.
Qed.

Lemma setVolume_settles
    (vol : number) (cb : CallbackId) (throws : bool) (st : State) :
  settles st (setVolume vol cb throws st).
Proof.
  unfold setVolume. destruct (chromecastClient st); [|apply settles_refl].
  cbv zeta. destruct throws;
    repeat (eapply settles_trans; [|apply emit_settles]);
    apply settles_refl.
Qed.

Lemma clientConnect_appends (st : State) (e : Effect) :
  In e (trace st) -> In e (trace (clientConnect st)).
Proof. intros H. rewrite clientConnect_result. do 3 right. exact H. Qed.

Lemma clientConnect_no_retry (st : State) :
  no_retry st -> no_retry (clientConnect st).
Proof. intros H. rewrite clientConnect_result. exact H. Qed.

Lemma no_retry_closed (st : State) : no_retry st -> closed_while_retrying st.
Proof. intros H id t c Hl Ha _. exfalso. exact (H id t Hl Ha). Qed.

(** A matching announcement: the old client is closed, and no retry is
    left. *)
Lemma serviceUp_replaces {engine : JS.Engine} (device : Device) (st : State) :
  names_match device st ->
  well_formed st ->
  no_retry (serviceUp device st)
  /\ forall c,
       chromecastClient st = Some c ->
       In (ClientClose c) (trace (serviceUp device st)).
Proof.
  intros Hm Hw. unfold serviceUp. unfold names_match in Hm.
  rewrite Hm, String.eqb_refl. cbv zeta.
  pose proof (setDefaultProperties_idle true st Hw) as [Hno _].
  assert (Hcl : forall c,
             chromecastClient st = Some c ->
             In (ClientClose c) (trace (setDefaultProperties true true st))).
  { intros c Hc. rewrite setDefaultProperties_result. ssimpl. rewrite Hc.
    now left. }
  revert Hno Hcl. generalize (setDefaultProperties true true st).
  intros x Hno Hcl. split.
  - apply clientConnect_no_retry. exact Hno.
  - intros c Hc. apply clientConnect_appends. right. apply Hcl, Hc.
Qed.

(** A retry fires: no retry is left. *)
Lemma fire_retry_no_retry (id : TimerId) (t : Timer) (st : State) :
  well_formed st ->
  timers st !! id = Some t -> action t = Reconnect ->
  fire id st
  = clientConnect
      (set_reconnectCounter (reconnectCounter st + 1)
         (set_timers (delete id (timers st)) st))
  /\ no_retry (fire id st).
Proof.
  intros [Htr _] Hl Ha.
  assert (E : fire id st
              = clientConnect
                  (set_reconnectCounter (reconnectCounter st + 1)
                     (set_timers (delete id (timers st)) st))).
  { unfold fire. rewrite Hl, Ha. reflexivity. }
  split; [exact E|]. rewrite E. apply clientConnect_no_retry.
  intros i x Hx Hax. ssimpl in Hx.
  apply lookup_delete_Some in Hx. destruct Hx as [Hne Hx].
  pose proof (Htr i x Hx Hax) as E1. pose proof (Htr id t Hl Ha) as E2.
  cbv beta in E1, E2. congruence.
Qed.

(** One event: the client field is left alone, or the client that was in it
    has been closed (and then no retry is pending). *)
Lemma step_settles_or_replaces {engine : JS.Engine}
    (ev : Event) (st st' : State) :
  step ev st = Normal st' ->
  well_formed st ->
  closed_while_retrying st ->
  settles st st'
  \/ (no_retry st'
      /\ forall c,
           chromecastClient st = Some c -> In (ClientClose c) (trace st')).
Proof.
  intros Hst Hw Hinv. destruct ev; unfold step in Hst.
  - apply Normal_inj in Hst; subst st'.
    destruct (String.eqb (JS.toLowerCase (txt_fn device))
                (JS.toLowerCase (chromecastDeviceName st))) eqn:Hm.
    + right. apply serviceUp_replaces; [|exact Hw].
      apply String.eqb_eq. exact Hm.
    + left. unfold serviceUp. rewrite Hm. apply settles_refl.
  - apply Normal_inj in Hst; subst st'. left. unfold connectCallback.
    destruct (chromecastClient st) eqn:Hc, layers; try apply settles_refl.
    cbv zeta. apply settles_frame; [reflexivity|].
    split; [ssimpl; now rewrite Hc|].
    intros e Hin. do 2 right. exact Hin.
  - left. exact (processClientStatus_settles _ _ _ _ Hst).
  - left. unfold getStatusCallback in Hst. destruct status; [|discriminate].
    exact (processClientStatus_settles _ _ _ _ Hst).
  - apply Normal_inj in Hst; subst st'. left. unfold clientError.
    eapply settles_trans; [apply emit_settles|apply clientDisconnect_settles].
  - apply Normal_inj in Hst; subst st'. left. apply clientDisconnect_settles.
  - left. destruct media as [m|]; [|discriminate].
    unfold joinCallback in Hst. apply Normal_inj in Hst; subst st'.
    cbv zeta. apply settles_frame; [reflexivity|].
    split; [reflexivity|]. intros e Hin. do 2 right. exact Hin.
  - apply Normal_inj in Hst; subst st'. left. apply processMediaStatus_settles.
  - apply Normal_inj in Hst; subst st'. left. apply setCasting_settles.
  - apply Normal_inj in Hst; subst st'. left. apply setVolume_settles.
  - apply Normal_inj in Hst; subst st'. left. apply emit_settles.
  - apply Normal_inj in Hst; subst st'.
    destruct (timers st !! id) as [t|] eqn:Hl;
      [|left; unfold fire; rewrite Hl; apply settles_refl].
    assert (H0 : settles st (set_timers (delete id (timers st)) st)).
    { split; [split; auto|]. left. intros i x Hx _. ssimpl in Hx.
      apply lookup_delete_Some in Hx. apply Hx. }
    destruct (action t) as [b| |] eqn:Ha.
    + left. unfold fire. rewrite Hl, Ha. cbv zeta.
      eapply settles_trans; [|apply detectChromecast_settles].
      eapply settles_trans; [|apply clientDisconnect_settles].
      eapply settles_trans; [exact H0|apply emit_settles].
    + right. destruct (fire_retry_no_retry id t st Hw Hl Ha) as [E Hno].
      split; [exact Hno|]. intros c Hc. rewrite E.
      apply clientConnect_appends. exact (Hinv id t c Hl Ha Hc).
    + left. unfold fire. rewrite Hl, Ha. cbv zeta. unfold updateMotionSensor.
      eapply settles_trans; [|apply emit_settles].
      eapply settles_trans; [exact H0|apply emit_settles].
  - apply Normal_inj in Hst; subst st'. left.
    apply settles_frame; [reflexivity|]. split; auto.
Qed.

Lemma step_closed_while_retrying {engine : JS.Engine}
    (ev : Event) (st st' : State) :
  step ev st = Normal st' ->
  well_formed st ->
  closed_while_retrying st -> closed_while_retrying st'.
Proof.
  intros Hst Hw Hinv.
  destruct (step_settles_or_replaces ev st st' Hst Hw Hinv) as [H|[H _]].
  - exact (settles_closed _ _ H Hinv).
  - apply no_retry_closed, H.
Qed.

Lemma constructor_closed_while_retrying
    (deviceName : string) (delay : option Z) :
  closed_while_retrying (constructor deviceName delay).
Proof.
  intros id t c _ _ Hc. unfold constructor in Hc.
  pose proof (detectChromecast_frame
                (setDefaultProperties true false (blank deviceName delay)))
    as D.
  cbv zeta in D. destruct D as (_ & _ & D3 & _).
  rewrite D3, setDefaultProperties_result in Hc. discriminate Hc.
Qed.

(** X10.  In every run from the constructor, when an event replaces the
    client in the field by another one, the replaced client has been closed:
    by the hard reset of a matching announcement in the same handler, or by
    the disconnect that scheduled the retry. *)
Theorem client_closed_before_replaced {engine : JS.Engine}
    (deviceName : string) (delay : option Z) (evs : list Event)
    (st : State) (ev : Event) (st' : State) (c : ClientId) :
  run (constructor deviceName delay) evs st ->
  step ev st = Normal st' ->
  chromecastClient st = Some c ->
  chromecastClient st' <> Some c ->
  In (ClientClose c) (trace st').
Proof.
  intros Hrun Hst Hc Hne.
  assert (H : well_formed st /\ closed_while_retrying st).
  { pose proof (constructor_well_formed deviceName delay) as Hw.
    pose proof (constructor_closed_while_retrying deviceName delay) as Hi.
    clear Hst Hc Hne.
    induction Hrun as [st|st e st1 evs st2 Hen Hs Hrun IH];
      [split; assumption|].
    apply IH.
    - exact (step_well_formed e st st1 Hs Hw).
    - exact (step_closed_while_retrying e st st1 Hs Hw Hi). }
  destruct H as [Hw Hi].
  destruct (step_settles_or_replaces ev st st' Hst Hw Hi)
    as [[[E _] _]|[_ H]].
  - exfalso. apply Hne. congruence.
  - exact (H c Hc).
Qed.

Lemma client_closed_before_replaced_witness :
  exists st st',
    run (constructor "living room" None)
      [ServiceUp Sample.device; ConnectCallback true] st
    /\ step (ServiceUp Sample.device) st = Normal st'
    /\ In (ClientClose 0%nat) (trace st').
Proof.
  assert (R : exists st,
             run (constructor "living room" None)
               [ServiceUp Sample.device; ConnectCallback true] st
             /\ chromecastClient st = Some 0%nat
             /\ chromecastClient
                  (serviceUp Sample.device st) <> Some 0%nat).
  { eexists. split; [|split].
    - eapply run_cons; [reflexivity | reflexivity |].
      eapply run_cons; [reflexivity | reflexivity |]. apply run_nil.
    - reflexivity.
    - vm_compute. discriminate. }
  destruct R as (st & R & Hc & Hne).
  exists st, (serviceUp Sample.device st).
  split; [exact R|]. split; [reflexivity|].
  exact (client_closed_before_replaced _ _ _ st (ServiceUp Sample.device) _
           0%nat R eq_refl Hc Hne).
Defined.

(** ** Repeated pushes *)

(** X11.  The projector deduplicates: a second call of [setIsCasting] with
    the same value changes nothing at all (no log, no characteristic update,
    no timer), and so does a second push of the same media status
    (diagnostic [debug] output apart). *)
Theorem projector_deduplicates
    (b : bool) (status : option MediaStatus) (st : State) :
  setIsCasting b (setIsCasting b st) = setIsCasting b st
  /\ processMediaStatus status (processMediaStatus status st)
     = processMediaStatus status st.
Proof.
  assert (H : forall x s, setIsCasting x (setIsCasting x s) = setIsCasting x s).
  { intros x s. pose proof (setIsCasting_value x s) as Hv.
    revert Hv. generalize (setIsCasting x s). intros y Hv.
    unfold setIsCasting. rewrite Hv.
    destruct x; reflexivity. }
  split; [apply H|].
  unfold processMediaStatus.
  destruct status as [[[ps|]]|]; cbn [playerState]; try reflexivity.
  destruct (JS.truthy_string ps); [|reflexivity].
  destruct (_ || _); apply H.
Qed.

Lemma storeVolume_volume (vol : option VolumeObj) (st : State) :
  volume (storeVolume vol st)
  = match vol with
    | Some (MkVolumeObj (Some lvl)) => lvl
    | _ => volume st
    end.
Proof. destruct vol as [[[lvl|]]|]; reflexivity. Qed.

Lemma attach_volume (app : Application) (jt : bool) (st : State) :
  volume (attach app jt st)
  = match chromecastClient st with
    | Some _ => if jt then JS.of_Z 0 else volume st
    | None => JS.of_Z 0
    end.
Proof.
  unfold attach. cbv zeta. ssimpl.
  destruct (chromecastClient st) as [c|].
  - destruct jt; [|reflexivity]. apply clientDisconnect_fields.
  - apply clientDisconnect_fields.
Qed.

Lemma tracked_volume (app : Application) (jt : bool) (st : State) :
  volume
    match castingApplication st with
    | Some tracked =>
        if String.eqb (sessionId app) (sessionId tracked)
        then st
        else attach app jt st
    | None => attach app jt st
    end
  = if match castingApplication st with
       | Some tracked => negb (String.eqb (sessionId app) (sessionId tracked))
       | None => true
       end
       && match chromecastClient st with
          | Some _ => jt
          | None => true
          end
    then JS.of_Z 0
    else volume st.
Proof.
  destruct (castingApplication st) as [tracked|];
    [destruct (String.eqb (sessionId app) (sessionId tracked))|];
    cbn [negb andb]; rewrite ?attach_volume; try reflexivity;
    destruct (chromecastClient st); [destruct jt| |destruct jt|];
    reflexivity.
Qed.

(** X12.  The volume stored after a device-status push: the level of the
    payload when it carries one, even if the push ends in a disconnect (the
    level is stored last); otherwise 0 when the push ends in a disconnect,
    and the volume stored before in every other case.  Neither an absent
    application list nor a new session changes the volume by itself. *)
Theorem stored_volume_after_push
    (status : ClientStatus) (jt : bool) (st : State) :
  exists st',
    processClientStatus (Some status) jt st = Normal st'
    /\ volume st'
       = match reported_level status with
         | Some lvl => lvl
         | None =>
             if push_disconnects status jt st then JS.of_Z 0 else volume st
         end.
Proof.
  destruct status as [apps vol].
  unfold reported_level, push_disconnects. cbn [applications svolume].
  destruct apps as [[|app rest]|].
  - eexists. split; [apply processClientStatus_no_candidate; exact I|].
    cbn [applications svolume]. rewrite storeVolume_volume.
    destruct vol as [[[lvl|]]|]; reflexivity.
  - eexists. split; [apply processClientStatus_candidate|].
    rewrite storeVolume_volume.
    destruct vol as [[[lvl|]]|]; try reflexivity; apply tracked_volume.
  - eexists. split; [apply processClientStatus_no_candidate; exact I|].
    cbn [applications svolume]. rewrite storeVolume_volume.
    destruct (setIsCasting_frame false (set_castingMedia None st))
      as (_ & _ & _ & _ & _ & Hv & _).
    destruct vol as [[[lvl|]]|]; try reflexivity; exact Hv.
Qed.

Lemma set_castingMedia_same (st : State) :
  castingMedia st = None -> set_castingMedia None st = st.
Proof. destruct st. cbn. intros ->. reflexivity. Qed.

Lemma storeVolume_twice (vol : option VolumeObj) (st : State) :
  storeVolume vol (storeVolume vol st) = storeVolume vol st.
Proof. destruct vol as [[[lvl|]]|]; reflexivity. Qed.

Lemma storeVolume_frame_more (vol : option VolumeObj) (st : State) :
  isCastingStatus (storeVolume vol st) = isCastingStatus st
  /\ chromecastClient (storeVolume vol st) = chromecastClient st.
Proof. destruct vol as [[[lvl|]]|]; split; reflexivity. Qed.

Lemma setIsCasting_noop (b : bool) (st : State) :
  isCastingStatus st = b -> setIsCasting b st = st.
Proof.
  intros H. unfold setIsCasting. rewrite H. now destruct b.
Qed.

(** X13.  Device-status pushes are idempotent when joining does not throw:
    handling the same status a second time, in the state the first handling
    left, changes nothing (no second join, no log, no timer; diagnostic
    [debug] output apart). *)
Theorem status_push_idempotent
    (status : ClientStatus) (st st1 : State) (c : ClientId) :
  chromecastClient st = Some c ->
  processClientStatus (Some status) false st = Normal st1 ->
  processClientStatus (Some status) false st1 = Normal st1.
Proof.
  intros Hc Hp. destruct status as [apps vol].
  destruct apps as [[|app rest]|].
  - rewrite processClientStatus_no_candidate in Hp by exact I.
    apply Normal_inj in Hp; subst st1.
    rewrite processClientStatus_no_candidate by exact I.
    cbn [applications svolume]. f_equal.
    rewrite set_castingMedia_same; [apply storeVolume_twice|].
    apply storeVolume_frame.
  - rewrite processClientStatus_candidate in Hp.
    apply Normal_inj in Hp; subst st1.
    rewrite processClientStatus_candidate. f_equal.
    assert (Hat : attach app false st
                  = emit (ClientJoin c (overwritten app))
                      (set_castingApplication (Some (overwritten app)) st)).
    { unfold attach. cbv zeta. ssimpl. now rewrite Hc. }
    destruct (storeVolume_frame vol
                (match castingApplication st with
                 | Some tracked =>
                     if String.eqb (sessionId app) (sessionId tracked)
                     then st
                     else attach app false st
                 | None => attach app false st
                 end)) as (Ha & _).
    rewrite Ha.
    destruct (castingApplication st) as [tracked|] eqn:Htr.
    + destruct (String.eqb (sessionId app) (sessionId tracked)) eqn:He.
      * rewrite Htr, He. apply storeVolume_twice.
      * rewrite Hat. cbn [castingApplication emit set_trace
                            set_castingApplication overwritten sessionId].
        rewrite String.eqb_refl. apply storeVolume_twice.
    + rewrite Hat. cbn [castingApplication emit set_trace
                          set_castingApplication overwritten sessionId].
      rewrite String.eqb_refl. apply storeVolume_twice.
  - rewrite processClientStatus_no_candidate in Hp by exact I.
    apply Normal_inj in Hp; subst st1.
    rewrite processClientStatus_no_candidate by exact I.
    cbn [applications svolume]. f_equal.
    pose proof (setIsCasting_value false (set_castingMedia None st)) as Hv.
    destruct (setIsCasting_frame false (set_castingMedia None st))
      as (_ & _ & _ & _ & Hm & _).
    revert Hv Hm. generalize (setIsCasting false (set_castingMedia None st)).
    intros y Hv Hm.
    destruct (storeVolume_frame vol y) as (_ & Hm' & _).
    destruct (storeVolume_frame_more vol y) as (Hc' & _).
    rewrite set_castingMedia_same by (rewrite Hm'; exact Hm).
    rewrite setIsCasting_noop by (rewrite Hc'; exact Hv).
    apply storeVolume_twice.
Qed.

Lemma status_push_idempotent_witness :
  exists st1,
    processClientStatus
      (Some (MkClientStatus (Some [MkApplication "A" None]) None)) false
      Sample.connected = Normal st1
    /\ processClientStatus
         (Some (MkClientStatus (Some [MkApplication "A" None]) None)) false
         st1 = Normal st1.
Proof.
  eexists. split; [reflexivity|].
  apply (status_push_idempotent _ Sample.connected _ 0%nat);
    reflexivity.
Defined.
